(** * reformat_monster.py: the record-to-statblock formatter

    A shallow embedding of [src/reformat_monster.py] and the properties of
    its output that the specification states.

    The program reads a JSON corpus (a mapping from a URL-shaped key to a
    monster record), and for every record prints a statblock document to a
    new file.  Python values are embedded as the type [value] of JSON
    values, Python strings as lists of Unicode code points, and the
    interpreter's exceptions as the type [exn]; output, the two diagnostic
    dictionaries and raised exceptions are threaded through a small
    writer/error monad. *)

From Stdlib Require Import List ZArith NArith String Ascii Bool Lia.
From Stdlib Require Import DecimalString DecimalPos DecimalZ.
Import ListNotations.

Set Implicit Arguments.

(** ** Python strings *)

(** A Python [str] is a sequence of code points. *)
Abbreviation pystr := (list N).

(** String literals of the source. *)
Definition lit (s : string) : pystr := map N_of_ascii (list_ascii_of_string s).

Definition ch_tab : N := 9.
Definition ch_nl : N := 10.
Definition ch_cr : N := 13.
Definition ch_quote : N := 34.       (* the double quote *)
Definition ch_hash : N := 35.        (* # *)
Definition ch_apos : N := 39.        (* the single quote *)
Definition ch_slash : N := 47.
Definition ch_backslash : N := 92.
Definition ch_underscore : N := 95.

Definition dq : pystr := [ch_quote].

Fixpoint pystr_eqb (a b : pystr) : bool :=
  match a, b with
  | [], [] => true
  | x :: a', y :: b' => N.eqb x y && pystr_eqb a' b'
  | _, _ => false
  end.

(** [sep.join(items)] on a list of strings. *)
Fixpoint join (sep : pystr) (items : list pystr) : pystr :=
  match items with
  | [] => []
  | [x] => x
  | x :: rest => x ++ sep ++ join sep rest
  end.

(** [s.replace(c, new)] for a one-character [c]. *)
Definition replace_char (c : N) (new : pystr) (s : pystr) : pystr :=
  flat_map (fun x => if N.eqb x c then new else [x]) s.

(** [s.split(c)] for a one-character separator. *)
Fixpoint split_char (c : N) (s : pystr) : list pystr :=
  match s with
  | [] => [[]]
  | x :: s' =>
      if N.eqb x c then [] :: split_char c s'
      else match split_char c s' with
           | [] => [[x]]
           | w :: ws => (x :: w) :: ws
           end
  end.

Fixpoint is_prefix (p s : pystr) : bool :=
  match p, s with
  | [], _ => true
  | x :: p', y :: s' => N.eqb x y && is_prefix p' s'
  | _ :: _, [] => false
  end.

(** [sub in s] on two strings. *)
Fixpoint is_substring (sub s : pystr) : bool :=
  is_prefix sub s ||
  match s with
  | [] => false
  | _ :: s' => is_substring sub s'
  end.

(** [str(i)] and ['{0:+}'.format(i)] for an integer. *)
Definition str_of_Z (z : Z) : pystr := lit (NilZero.string_of_int (Z.to_int z)).

Definition signed_of_Z (z : Z) : pystr :=
  if (z <? 0)%Z then str_of_Z z else lit "+" ++ str_of_Z z.

(** *** The [unicode_escape] codec and [repr] of a string *)

Definition hexdigit (n : N) : N := if (n <? 10)%N then (48 + n)%N else (87 + n)%N.

(** [width] lower-case hexadecimal digits of [c], most significant first. *)
Definition hex_digits (width : nat) (c : N) : pystr :=
  map (fun i => hexdigit (N.land (N.shiftr c (4 * N.of_nat i)) 15))
      (rev (seq 0 width)).

Definition printable_ascii (ch : N) : bool := (32 <=? ch)%N && (ch <? 127)%N.

(** One character of [str.encode('unicode_escape')]. *)
Definition unicode_escape_char (ch : N) : pystr :=
  if (ch <? 256)%N then
    if printable_ascii ch then
      if (ch =? ch_backslash)%N then [ch_backslash; ch_backslash] else [ch]
    else if (ch =? ch_tab)%N then lit "\t"
    else if (ch =? ch_nl)%N then lit "\n"
    else if (ch =? ch_cr)%N then lit "\r"
    else lit "\x" ++ hex_digits 2 ch
  else if (ch <? 65536)%N then lit "\u" ++ hex_digits 4 ch
  else lit "\U00" ++ hex_digits 6 ch.

(** [s.encode('unicode_escape').decode('ASCII')]: the escaped bytes are all
    ASCII, so decoding gives them back as characters. *)
Definition unicode_escape (s : pystr) : pystr := flat_map unicode_escape_char s.

(** ** JSON values, as [json.load] builds them *)

(** A [dict] keeps its keys in insertion order, which the formatter's loops
    observe, so it is an association list.  JSON numbers are the integers of
    the corpus; Python floats are outside this model. *)
#[warnings="-register-all"]
Inductive value : Type :=
| VNone
| VBool (b : bool)
| VInt (z : Z)
| VStr (s : pystr)
| VList (l : list value)
| VDict (d : list (pystr * value)).

Abbreviation dict := (list (pystr * value)).

Fixpoint lookup {A : Type} (k : pystr) (d : list (pystr * A)) : option A :=
  match d with
  | [] => None
  | (k', v) :: d' => if pystr_eqb k k' then Some v else lookup k d'
  end.

Definition has_key {A : Type} (k : pystr) (d : list (pystr * A)) : bool :=
  match lookup k d with Some _ => true | None => false end.

(** [d[k] = v]: an existing key keeps its place, a new one goes last. *)
Fixpoint dict_set {A : Type} (k : pystr) (v : A) (d : list (pystr * A))
  : list (pystr * A) :=
  match d with
  | [] => [(k, v)]
  | (k', v') :: d' =>
      if pystr_eqb k k' then (k', v) :: d' else (k', v') :: dict_set k v d'
  end.

(** The record [d] without its field [k]. *)
Definition delete {A : Type} (k : pystr) (d : list (pystr * A))
  : list (pystr * A) :=
  filter (fun kv => negb (pystr_eqb k (fst kv))) d.

Definition keys {A : Type} (d : list (pystr * A)) : list pystr := map fst d.

(** Python's [==] on JSON values: [True == 1], lists compare element by
    element, dicts compare as mappings. *)
Fixpoint py_eq (a b : value) {struct a} : bool :=
  match a, b with
  | VNone, VNone => true
  | VBool x, VBool y => Bool.eqb x y
  | VBool x, VInt y => (Z.b2z x =? y)%Z
  | VInt x, VBool y => (x =? Z.b2z y)%Z
  | VInt x, VInt y => (x =? y)%Z
  | VStr x, VStr y => pystr_eqb x y
  | VList x, VList y =>
      (fix all2 (x : list value) (y : list value) {struct x} : bool :=
         match x, y with
         | [], [] => true
         | a' :: x', b' :: y' => py_eq a' b' && all2 x' y'
         | _, _ => false
         end) x y
  | VDict x, VDict y =>
      Nat.eqb (List.length x) (List.length y) &&
      (fix sub (x : list (pystr * value)) {struct x} : bool :=
         match x with
         | [] => true
         | (k, v) :: x' =>
             match lookup k y with
             | Some w => py_eq v w && sub x'
             | None => false
             end
         end) x
  | _, _ => false
  end.

Definition hashable (v : value) : bool :=
  match v with
  | VList _ | VDict _ => false
  | _ => true
  end.

(** The objects [isinstance] is applied to: a value, or the type object
    that [type(v)] returns. *)
Inductive pytype := TNoneType | TBool | TInt | TStr | TList | TDict.

Inductive pyobj :=
| Obj (v : value)
| TypeObj (t : pytype).

Definition py_type (v : value) : pyobj :=
  TypeObj match v with
          | VNone => TNoneType
          | VBool _ => TBool
          | VInt _ => TInt
          | VStr _ => TStr
          | VList _ => TList
          | VDict _ => TDict
          end.

(** [isinstance(o, int)]: [bool] is a subclass of [int]; a type object is
    an instance of [type], not of [int]. *)
Definition isinstance_int (o : pyobj) : bool :=
  match o with
  | Obj (VInt _) | Obj (VBool _) => true
  | _ => false
  end.

(** ** Exceptions, output and the monad *)

Inductive exn :=
| KeyError (k : value)
| TypeError
| IndexError
| ValueError
| AttributeError
| FileExistsError
| SystemExit.

(** [f] of [write_monster_to_file] is [sys.stdout] or the file that
    [write_monster] opened. *)
Inductive stream := Stdout | OutFile.

(** What a run of the formatter does to the world, in order: a [print]
    call with the text it writes (without the final newline), an assignment
    [keys_used[k] = True], an assignment [source_dict[k] = True]. *)
Inductive event :=
| Emit (f : stream) (text : pystr)
| KeyUsed (k : pystr)
| SourceSeen (k : value).

Inductive result (A : Type) :=
| Ok (a : A)
| Raise (e : exn).
Arguments Ok {A} a.
Arguments Raise {A} e.

Definition M (A : Type) : Type := list event * result A.

Definition ret {A : Type} (a : A) : M A := ([], Ok a).
Definition raise {A : Type} (e : exn) : M A := ([], Raise e).
Definition tell (evs : list event) : M unit := (evs, Ok tt).

Definition bind {A B : Type} (c : M A) (k : A -> M B) : M B :=
  match c with
  | (evs, Ok a) => let (evs', r) := k a in (evs ++ evs', r)
  | (evs, Raise e) => (evs, Raise e)
  end.

Arguments bind : simpl never.
Arguments ret : simpl never.
Arguments raise : simpl never.
Arguments tell : simpl never.

Declare Scope py_scope.
Delimit Scope py_scope with py.
Notation "x <- c ;; k" := (bind c (fun x => k))
  (at level 61, c at next level, right associativity) : py_scope.
Notation "c ;; k" := (bind c (fun _ => k))
  (at level 61, right associativity) : py_scope.
Open Scope py_scope.

(** [try: body / except Exception as e: handler(e)]; [SystemExit] is not an
    [Exception]. *)
Definition try_except {A : Type} (body : M A) (handler : exn -> M A) : M A :=
  match body with
  | (evs, Raise SystemExit) => (evs, Raise SystemExit)
  | (evs, Raise e) => let (evs', r) := handler e in (evs ++ evs', r)
  | ok => ok
  end.

Definition when (b : bool) (c : M unit) : M unit := if b then c else ret tt.

Fixpoint for_each {A : Type} (l : list A) (body : A -> M unit) : M unit :=
  match l with
  | [] => ret tt
  | x :: l' => body x ;; for_each l' body
  end.

(** A loop that threads an accumulator. *)
Fixpoint fold_m {A S : Type} (l : list A) (body : S -> A -> M S) (s : S) : M S :=
  match l with
  | [] => ret s
  | x :: l' => s' <- body s x ;; fold_m l' body s'
  end.

(** A comprehension [[g(x) for x in l]]. *)
Fixpoint map_m {A B : Type} (g : A -> M B) (l : list A) : M (list B) :=
  match l with
  | [] => ret []
  | x :: l' => y <- g x ;; ys <- map_m g l' ;; ret (y :: ys)
  end.

(** ** Operations of the interpreter on values *)

Definition index_list {A : Type} (l : list A) (i : Z) : option A :=
  let n := Z.of_nat (List.length l) in
  let j := if (i <? 0)%Z then (i + n)%Z else i in
  if (0 <=? j)%Z && (j <? n)%Z then nth_error l (Z.to_nat j) else None.

Definition as_index (k : value) : option Z :=
  match k with
  | VInt z => Some z
  | VBool b => Some (Z.b2z b)
  | _ => None
  end.

(** [c[k]]. *)
Definition getitem (c k : value) : M value :=
  match c with
  | VDict d =>
      if hashable k then
        match k with
        | VStr s => match lookup s d with
                    | Some v => ret v
                    | None => raise (KeyError k)
                    end
        | _ => raise (KeyError k)
        end
      else raise TypeError
  | VList l =>
      match as_index k with
      | Some i => match index_list l i with
                  | Some v => ret v
                  | None => raise IndexError
                  end
      | None => raise TypeError
      end
  | VStr s =>
      match as_index k with
      | Some i => match index_list s i with
                  | Some ch => ret (VStr [ch])
                  | None => raise IndexError
                  end
      | None => raise TypeError
      end
  | _ => raise TypeError
  end.

(** [c['k']] with a literal key. *)
Definition item (c : value) (k : string) : M value := getitem c (VStr (lit k)).

(** [c['k1']['k2']...]. *)
Fixpoint path (c : value) (ks : list string) : M value :=
  match ks with
  | [] => ret c
  | k :: ks' => v <- item c k ;; path v ks'
  end.

(** [k in c]. *)
Definition contains (k c : value) : M bool :=
  match c with
  | VDict d =>
      if hashable k then
        ret match k with VStr s => has_key s d | _ => false end
      else raise TypeError
  | VList l => ret (existsb (fun x => py_eq x k) l)
  | VStr s =>
      match k with
      | VStr sub => ret (is_substring sub s)
      | _ => raise TypeError
      end
  | _ => raise TypeError
  end.

(** ['k' in c] with a literal key. *)
Definition has (k : string) (c : value) : M bool := contains (VStr (lit k)) c.

(** The items a [for] loop over [c] visits. *)
Definition iter (c : value) : M (list value) :=
  match c with
  | VDict d => ret (map (fun kv => VStr (fst kv)) d)
  | VList l => ret l
  | VStr s => ret (map (fun ch => VStr [ch]) s)
  | _ => raise TypeError
  end.

(** [c.keys()]: only a dict has the method. *)
Definition keys_of (c : value) : M (list value) :=
  match c with
  | VDict d => ret (map (fun kv => VStr (fst kv)) d)
  | _ => raise AttributeError
  end.

(** A value used where only a [str] will do: an operand of [+] next to a
    string, an item of the argument of [join]. *)
Definition need_str (v : value) : M pystr :=
  match v with
  | VStr s => ret s
  | _ => raise TypeError
  end.

(** [sep.join(items)] on a list the program built. *)
Definition join_values (sep : string) (items : list value) : M pystr :=
  ss <- map_m need_str items ;; ret (join (lit sep) ss).

(** [sep.join(c)] on a value of the record. *)
Definition py_join (sep : string) (c : value) : M pystr :=
  items <- iter c ;; join_values sep items.

(** ['{0:+}'.format(v)]. *)
Definition format_plus (v : value) : M pystr :=
  match v with
  | VInt z => ret (signed_of_Z z)
  | VBool b => ret (signed_of_Z (Z.b2z b))
  | VStr _ => raise ValueError
  | _ => raise TypeError
  end.

(** [s.replace('c', new)] on a value: only a [str] has the method. *)
Definition py_replace_char (v : value) (c : N) (new : string) : M pystr :=
  match v with
  | VStr s => ret (replace_char c (lit new) s)
  | _ => raise AttributeError
  end.

Definition wq (s : pystr) : pystr := dq ++ s ++ dq.

Definition print (f : stream) (args : list pystr) : M unit :=
  tell [Emit f (join (lit " ") args)].

(** ** The formatter *)

Section Formatter.

(** [str.isprintable] on a code point above the ASCII range, which [repr]
    consults: a table of the interpreter's Unicode database. *)
Variable isprintable : N -> bool.

(** The message of a [TypeError].  The interpreter words it after the
    operation and the operand types; the model keeps the exception class
    only, so the text is left open. *)
Variable TypeError_text : pystr.

Definition repr_char (quote ch : N) : pystr :=
  if (ch =? quote)%N || (ch =? ch_backslash)%N then [ch_backslash; ch]
  else if (ch =? ch_tab)%N then lit "\t"
  else if (ch =? ch_nl)%N then lit "\n"
  else if (ch =? ch_cr)%N then lit "\r"
  else if (ch <? 32)%N || (ch =? 127)%N then lit "\x" ++ hex_digits 2 ch
  else if (ch <? 127)%N then [ch]
  else if isprintable ch then [ch]
  else if (ch <? 256)%N then lit "\x" ++ hex_digits 2 ch
  else if (ch <? 65536)%N then lit "\u" ++ hex_digits 4 ch
  else lit "\U" ++ hex_digits 8 ch.

(** [repr(s)] of a string: single quotes, unless the string has a single
    quote and no double quote. *)
Definition repr_str (s : pystr) : pystr :=
  let quote :=
    if existsb (N.eqb ch_apos) s && negb (existsb (N.eqb ch_quote) s)
    then ch_quote else ch_apos in
  [quote] ++ flat_map (repr_char quote) s ++ [quote].

Fixpoint py_repr (v : value) : pystr :=
  match v with
  | VNone => lit "None"
  | VBool true => lit "True"
  | VBool false => lit "False"
  | VInt z => str_of_Z z
  | VStr s => repr_str s
  | VList l => lit "[" ++ join (lit ", ") (map py_repr l) ++ lit "]"
  | VDict d =>
      lit "{" ++
      join (lit ", ")
           (map (fun kv => repr_str (fst kv) ++ lit ": " ++ py_repr (snd kv)) d)
      ++ lit "}"
  end.

(** [str(v)]. *)
Definition py_str (v : value) : pystr :=
  match v with
  | VStr s => s
  | _ => py_repr v
  end.

(** [str(e)] of a caught exception.  The program prints a [KeyError], a
    [TypeError] and, in the handler of line 339, the [IndexError] of a list;
    the other classes are never printed. *)
Definition exn_text (e : exn) : pystr :=
  match e with
  | KeyError k => py_repr k
  | TypeError => TypeError_text
  | IndexError => lit "list index out of range"
  | _ => []
  end.

(** [to_desc(txt, file)]. *)
Definition to_desc (txt : value) (file : stream) : M unit :=
  let s := unicode_escape (py_str txt) in
  print file [lit "    desc:"; dq ++ s ++ dq].

(** [if keys_used is not None: keys_used[k] = True]; the flag says whether
    the argument is the dictionary or [None]. *)
Definition used (keys_used : bool) (k : string) : M unit :=
  when keys_used (tell [KeyUsed (lit k)]).

(** In every step [monster_in] is the record as a value.  Subscripting a
    record has no effect and always gives the same answer, so where a
    statement repeats [monster_in['a']['b']] the steps may bind it once. *)

(** Lines 87-97. *)
Definition step_front_matter (monster_name : value) (f : stream) : M unit :=
  print f [lit "---"] ;;
  print f [lit "statblock: inline"] ;;
  print f [lit "tags: monster"] ;;
  print f [lit "name:"; py_str monster_name] ;;
  print f [lit "---"] ;;
  print f [lit "```statblock"] ;;
  print f [lit "layout: Basic Pathfinder 1e Layout"].

(** Lines 100-103, on a source name that is a string. *)
Definition source_text (source : pystr) : pystr :=
  let source :=
    if pystr_eqb (skipn 8 source) (lit "Bestiary")
    then lit "Pathfinder RPG " ++ source else source in
  if is_substring (lit "#") source
  then replace_char ch_hash (lit "No. ") source else source.

(** Lines 98-104.  [source_dict[source] = True] needs a dictionary and a
    hashable key; [source[8:]] needs a sequence, which of the hashable JSON
    values only a string is. *)
Definition step_source (monster_in : value) (f : stream) (source_dict : bool)
  : M unit :=
  srcs <- item monster_in "sources" ;;
  first <- getitem srcs (VInt 0) ;;
  source <- item first "name" ;;
  (if source_dict && hashable source then tell [SourceSeen source]
   else raise TypeError) ;;
  s <- need_str source ;;
  print f [lit "source: "; dq ++ source_text s ++ dq].

(** A line [print(label, monster_in[k], file=f)]. *)
Definition print_field (monster_in : value) (f : stream) (label k : string)
  : M unit :=
  v <- item monster_in k ;;
  print f [lit label; py_str v].

(** Lines 106-113. *)
Definition step_CR (monster_in : value) (f : stream) (keys_used : bool) : M unit :=
  used keys_used "CR" ;;
  print_field monster_in f "Monster_CR:" "CR".

Definition step_name (monster_name : value) (f : stream) (keys_used : bool)
  : M unit :=
  used keys_used "title1" ;;
  print f [lit "name:"; py_str monster_name].

Definition step_XP (monster_in : value) (f : stream) (keys_used : bool) : M unit :=
  used keys_used "XP" ;;
  print_field monster_in f "Monster_XP:" "XP".

(** Lines 115-121. *)
Definition step_race (monster_in : value) (f : stream) (keys_used : bool)
  : M unit :=
  used keys_used "race" ;;
  b <- has "race" monster_in ;;
  when b (print_field monster_in f "race:" "race").

Definition step_classes (monster_in : value) (f : stream) (keys_used : bool)
  : M unit :=
  used keys_used "classes" ;;
  b <- has "classes" monster_in ;;
  when b (v <- item monster_in "classes" ;;
          j <- py_join ", " v ;;
          print f [lit "class:"; wq j]).

(** Lines 123-130. *)
Definition step_alignment (monster_in : value) (f : stream) (keys_used : bool)
  : M unit :=
  used keys_used "alignment" ;;
  print_field monster_in f "alignment:" "alignment".

Definition step_size (monster_in : value) (f : stream) (keys_used : bool)
  : M unit :=
  used keys_used "size" ;;
  print_field monster_in f "size:" "size".

Definition step_type (monster_in : value) (f : stream) (keys_used : bool)
  : M unit :=
  used keys_used "type" ;;
  print_field monster_in f "type:" "type".

(** Lines 132-134. *)
Definition step_subtypes (monster_in : value) (f : stream) (keys_used : bool)
  : M unit :=
  used keys_used "subtypes" ;;
  b <- has "subtypes" monster_in ;;
  when b (v <- item monster_in "subtypes" ;;
          j <- py_join ", " v ;;
          print f [lit "subtype: " ++ wq (lit "(" ++ j ++ lit ")")]).

(** ['/'.join(['{0:+}'.format(i) for i in bonus])]. *)
Definition signed_list (bonus : value) : M pystr :=
  items <- iter bonus ;;
  parts <- map_m format_plus items ;;
  ret (join (lit "/") parts).

(** Lines 137-143. *)
Definition step_initiative (monster_in : value) (f : stream) (keys_used : bool)
  : M unit :=
  used keys_used "initiative" ;;
  bonus <- path monster_in ["initiative"; "bonus"]%string ;;
  if isinstance_int (Obj bonus) then
    s <- format_plus bonus ;;
    print f [lit "INI:"; s]
  else
    ini <- item monster_in "initiative" ;;
    b <- has "ability" ini ;;
    if b then
      s <- signed_list bonus ;;
      ability <- item ini "ability" ;;
      print f [lit "INI:"; s ++ lit "; "; py_str ability]
    else
      s <- signed_list bonus ;;
      print f [lit "INI:"; s].

(** Lines 145-146: [monster_in['skills']] is subscripted without a test. *)
Definition step_perception (monster_in : value) (f : stream) : M unit :=
  skills <- item monster_in "skills" ;;
  b <- has "Perception" skills ;;
  when b (v <- path skills ["Perception"; "_"]%string ;;
          s <- format_plus v ;;
          print f [lit "perception:"; s]).

(** Lines 150-155: the list [senses] that the loop builds.  The test is
    [isinstance(type(v), int)]: it is put to the type object. *)
Definition senses_items (senses : value) : M (list value) :=
  ks <- iter senses ;;
  fold_m ks
    (fun acc key =>
       v <- getitem senses key ;;
       if isinstance_int (py_type v) then
         k <- need_str key ;;
         ret (acc ++ [VStr (k ++ lit " " ++ py_str v)])
       else ret (acc ++ [key]))
    [].

(** Lines 148-156. *)
Definition step_senses (monster_in : value) (f : stream) (keys_used : bool)
  : M unit :=
  used keys_used "senses" ;;
  b <- has "senses" monster_in ;;
  when b (v <- item monster_in "senses" ;;
          senses <- senses_items v ;;
          j <- join_values ", " senses ;;
          print f [lit "senses:"; wq j]).

(** Lines 158-163. *)
Definition step_auras (monster_in : value) (f : stream) (keys_used : bool)
  : M unit :=
  used keys_used "auras" ;;
  b <- has "auras" monster_in ;;
  when b (v <- item monster_in "auras" ;;
          items <- iter v ;;
          aura <- map_m (fun a => item a "name") items ;;
          j <- join_values ", " aura ;;
          print f [lit "aura:"; wq j]).

(** Lines 168-175: the parenthesis of the armour class, from the
    [components] table. *)
Definition ac_components (components : value) : M pystr :=
  ks <- iter components ;;
  acc <- fold_m ks
    (fun (acc : list pystr * pystr) key =>
       v <- getitem components key ;;
       if isinstance_int (Obj v) then
         k <- need_str key ;;
         s <- format_plus v ;;
         ret (fst acc ++ [k ++ lit " " ++ s], snd acc)
       else
         j <- py_join ", " v ;;
         ret (fst acc, snd acc ++ lit "; " ++ j))
    ([], []) ;;
  ret (lit " (" ++ join (lit ", ") (fst acc) ++ snd acc ++ lit ")").

(** Lines 165-176. *)
Definition step_AC (monster_in : value) (f : stream) (keys_used : bool) : M unit :=
  used keys_used "AC" ;;
  a <- path monster_in ["AC"; "AC"]%string ;;
  touch <- path monster_in ["AC"; "touch"]%string ;;
  flat <- path monster_in ["AC"; "flat_footed"]%string ;;
  let ac := py_str a ++ lit ", touch " ++ py_str touch
            ++ lit ", flat-footed " ++ py_str flat in
  table <- item monster_in "AC" ;;
  b <- has "components" table ;;
  ac <- (if b then
           components <- item table "components" ;;
           paren <- ac_components components ;;
           ret (ac ++ paren)
         else ret ac) ;;
  print f [lit "AC:"; wq ac].

(** Lines 179-182: the list [hp_special].  [key.replace] exists on a
    string only. *)
Definition hp_special (hp : value) : M (list pystr) :=
  ks <- iter hp ;;
  fold_m ks
    (fun acc key =>
       if negb (py_eq key (VStr (lit "HP"))) && negb (py_eq key (VStr (lit "long")))
       then
         k <- py_replace_char key ch_underscore " " ;;
         v <- getitem hp key ;;
         ret (acc ++ [k ++ lit " " ++ py_str v])
       else ret acc)
    [].

(** Lines 178-184. *)
Definition step_HP (monster_in : value) (f : stream) (keys_used : bool) : M unit :=
  used keys_used "HP" ;;
  hp <- item monster_in "HP" ;;
  special <- hp_special hp ;;
  v <- item hp "HP" ;;
  print f [lit "HP:"; py_str v] ;;
  print f [lit "HP_extra:"; wq (join (lit "; ") special)].

(** Lines 186-187. *)
Definition step_HD (monster_in : value) (f : stream) (keys_used : bool) : M unit :=
  used keys_used "HD" ;;
  v <- path monster_in ["HP"; "long"]%string ;;
  print f [lit "HD:"; py_str v].

(** Lines 189-193. *)
Definition step_saves (monster_in : value) (f : stream) (keys_used : bool)
  : M unit :=
  used keys_used "saves" ;;
  saves <- item monster_in "saves" ;;
  fort <- (v <- item saves "fort" ;; format_plus v) ;;
  ref <- (v <- item saves "ref" ;; format_plus v) ;;
  will <- (v <- item saves "will" ;; format_plus v) ;;
  print f [lit "saves:";
           wq (lit "Fort " ++ fort ++ lit ", Ref " ++ ref ++ lit ", Will " ++ will)] ;;
  b <- has "other" saves ;;
  when b (v <- item saves "other" ;;
          other <- need_str v ;;
          print f [lit "saves_other:"; wq other]).

(** A line [print(label, wq(', '.join(monster_in[k])), file=f)], printed
    when the field is there. *)
Definition print_joined (monster_in : value) (f : stream) (label k : string)
  : M unit :=
  b <- has k monster_in ;;
  when b (v <- item monster_in k ;;
          j <- py_join ", " v ;;
          print f [lit label; wq j]).

(** Lines 195-197. *)
Definition step_immunities (monster_in : value) (f : stream) (keys_used : bool)
  : M unit :=
  used keys_used "immunities" ;;
  print_joined monster_in f "immune:" "immunities".

(** Lines 199-204. *)
Definition step_resistances (monster_in : value) (f : stream) (keys_used : bool)
  : M unit :=
  used keys_used "resistances" ;;
  b <- has "resistances" monster_in ;;
  when b (table <- item monster_in "resistances" ;;
          ks <- iter table ;;
          resist <- map_m (fun key =>
                             k <- need_str key ;;
                             v <- getitem table key ;;
                             ret (k ++ lit " " ++ py_str v)) ks ;;
          print f [lit "resist:"; wq (join (lit ", ") resist)]).

(** Lines 206-211. *)
Definition step_DR (monster_in : value) (f : stream) (keys_used : bool) : M unit :=
  used keys_used "DR" ;;
  b <- has "DR" monster_in ;;
  when b (v <- item monster_in "DR" ;;
          items <- iter v ;;
          dr <- map_m (fun dr_source =>
                         amount <- item dr_source "amount" ;;
                         w <- item dr_source "weakness" ;;
                         weakness <- need_str w ;;
                         ret (py_str amount ++ lit "/" ++ weakness)) items ;;
          print f [lit "DR:"; wq (join (lit ", ") dr)]).

(** Lines 213-215: here the key is recorded only when the field is there. *)
Definition step_defensive_abilities (monster_in : value) (f : stream)
  (keys_used : bool) : M unit :=
  b <- has "defensive_abilities" monster_in ;;
  when b (used keys_used "defensive_abilities" ;;
          v <- item monster_in "defensive_abilities" ;;
          j <- py_join ", " v ;;
          print f [lit "defensive_abilities:"; wq j]).

(** Lines 217-223. *)
Definition step_SR (monster_in : value) (f : stream) (keys_used : bool) : M unit :=
  used keys_used "SR" ;;
  b <- has "SR" monster_in ;;
  when b (print_field monster_in f "SR:" "SR").

Definition step_weaknesses (monster_in : value) (f : stream) (keys_used : bool)
  : M unit :=
  used keys_used "weaknesses" ;;
  print_joined monster_in f "weak:" "weaknesses".

(** Lines 226-235: the list [speed] before the loop over the table. *)
Definition speed_head (speeds : value) : M (list pystr) :=
  b <- has "base" speeds ;;
  speed <- (if b then v <- item speeds "base" ;; ret [py_str v ++ lit " ft."]
            else ret []) ;;
  b <- has "fly" speeds ;;
  if b then
    b <- has "fly_maneuverability" speeds ;;
    if b then
      fly <- item speeds "fly" ;;
      v <- item speeds "fly_maneuverability" ;;
      man <- need_str v ;;
      ret (speed ++ [lit "fly " ++ py_str fly ++ lit " ft. (" ++ man ++ lit ")"])
    else
      b <- has "fly_other" speeds ;;
      if b then
        fly <- item speeds "fly" ;;
        v <- item speeds "fly_other" ;;
        other <- need_str v ;;
        ret (speed ++ [lit "fly " ++ py_str fly ++ lit " ft. (" ++ other ++ lit ")"])
      else
        fly <- item speeds "fly" ;;
        ret (speed ++ [lit "fly " ++ py_str fly ++ lit " ft."])
  else ret speed.

Definition is_lit (key : value) (k : string) : bool := py_eq key (VStr (lit k)).

(** Lines 236-243: one round of the loop over the speeds table. *)
Definition speed_entry (speeds : value) (speed : list pystr) (key : value)
  : M (list pystr) :=
  if is_lit key "base" then ret speed
  else if is_lit key "fly" then ret speed
  else if is_lit key "fly_maneuverability" then ret speed
  else if is_lit key "base_other" then
    v <- getitem speeds key ;;
    ret (speed ++ [lit " " ++ py_str v])
  else
    k <- need_str key ;;
    v <- getitem speeds key ;;
    ret (speed ++ [k ++ lit " " ++ py_str v ++ lit " ft."]).

(** Lines 226-243: the list [speed]. *)
Definition speed_items (speeds : value) : M (list pystr) :=
  speed <- speed_head speeds ;;
  ks <- iter speeds ;;
  fold_m ks (speed_entry speeds) speed.

(** Lines 225-244. *)
Definition step_speeds (monster_in : value) (f : stream) (keys_used : bool)
  : M unit :=
  used keys_used "speeds" ;;
  speeds <- item monster_in "speeds" ;;
  speed <- speed_items speeds ;;
  print f [lit "speed:"; wq (join (lit ", ") speed)].

(** [k in monster_in and sub in monster_in[k]]. *)
Definition has_sub (monster_in : value) (k sub : string) : M bool :=
  b <- has k monster_in ;;
  if b then v <- item monster_in k ;; has sub v else ret false.

(** Lines 247-256: the [melee] and the [ranged] line. *)
Definition attack_line (monster_in : value) (f : stream) (kind label : string)
  : M unit :=
  b <- has_sub monster_in "attacks" kind ;;
  when b (v <- path monster_in ["attacks"; kind]%string ;;
          first <- getitem v (VInt 0) ;;
          items <- iter first ;;
          texts <- map_m (fun m => item m "text") items ;;
          j <- join_values ", " texts ;;
          print f [lit label; wq j]).

(** Lines 246-258. *)
Definition step_attacks (monster_in : value) (f : stream) (keys_used : bool)
  : M unit :=
  used keys_used "attacks" ;;
  attack_line monster_in f "melee" "melee:" ;;
  attack_line monster_in f "ranged" "ranged:" ;;
  b <- has_sub monster_in "attacks" "special" ;;
  when b (v <- path monster_in ["attacks"; "special"]%string ;;
          j <- py_join ", " v ;;
          print f [lit "special_attacks:"; wq j]).

(** Lines 260-272. *)
Definition step_space (monster_in : value) (f : stream) (keys_used : bool)
  : M unit :=
  used keys_used "space" ;;
  b <- has "space" monster_in ;;
  when b (v <- item monster_in "space" ;;
          print f [lit "space:"; py_str v; lit "ft."]).

Definition step_reach (monster_in : value) (f : stream) (keys_used : bool)
  : M unit :=
  used keys_used "reach" ;;
  b <- has "reach" monster_in ;;
  when b (b <- has "reach_other" monster_in ;;
          if b then
            used keys_used "reach_other" ;;
            reach_other <- item monster_in "reach_other" ;;
            reach <- item monster_in "reach" ;;
            other <- need_str reach_other ;;
            print f [lit "reach:"; py_str reach; lit "ft. (" ++ other ++ lit ")"]
          else
            reach <- item monster_in "reach" ;;
            print f [lit "reach:"; py_str reach; lit "ft."]).

(** Lines 274-279. *)
Definition step_tactics (monster_in : value) (f : stream) (keys_used : bool)
  : M unit :=
  used keys_used "tactics" ;;
  b <- has "tactics" monster_in ;;
  when b (print f [lit "tactics:"] ;;
          tactics <- item monster_in "tactics" ;;
          ks <- iter tactics ;;
          for_each ks (fun k =>
            print f [lit "  - name:"; py_str k] ;;
            v <- getitem tactics k ;;
            to_desc v f)).

(** Lines 281-288. *)
Definition step_ability_scores (monster_in : value) (f : stream)
  (keys_used : bool) : M unit :=
  used keys_used "ability_scores" ;;
  stats <- map_m (fun k => v <- path monster_in ["ability_scores"; k]%string ;;
                           ret (py_str v))
                 ["STR"; "DEX"; "CON"; "INT"; "WIS"; "CHA"]%string ;;
  print f [lit "pf1e_stats:"; lit "[" ++ join (lit ", ") stats ++ lit "]"].

(** Lines 290-291. *)
Definition step_BAB (monster_in : value) (f : stream) (keys_used : bool)
  : M unit :=
  used keys_used "BAB" ;;
  print_field monster_in f "BAB:" "BAB".

(** Lines 293-305: the combat manoeuvre bonus and defence, [k] being
    [CMB] or [CMD]. *)
Definition step_CM (k : string) (monster_in : value) (f : stream)
  (keys_used : bool) : M unit :=
  used keys_used (k ++ "_other") ;;
  used keys_used k ;;
  b <- has (k ++ "_other") monster_in ;;
  if b then
    v <- item monster_in k ;;
    o <- item monster_in (k ++ "_other") ;;
    other <- need_str o ;;
    print f [lit (k ++ ":"); py_str v; lit "(" ++ other ++ lit ")"]
  else
    print_field monster_in f (k ++ ":") k.

(** Lines 307-312. *)
Definition step_feats (monster_in : value) (f : stream) (keys_used : bool)
  : M unit :=
  used keys_used "feats" ;;
  b <- has "feats" monster_in ;;
  when b (v <- item monster_in "feats" ;;
          items <- iter v ;;
          feats <- map_m (fun feat => item feat "name") items ;;
          j <- join_values ", " feats ;;
          print f [lit "feats:"; wq j]).

(** Lines 316-325: the list [skills]. *)
Definition skills_items (skills : value) : M (list pystr) :=
  ks <- keys_of skills ;;
  fold_m ks
    (fun acc s =>
       if is_lit s "_racial_mods" then ret acc
       else
         v <- (e <- getitem skills s ;; item e "_") ;;
         val <- match v with
                | VNone => ret []
                | _ => format_plus v
                end ;;
         key <- need_str s ;;
         ret (acc ++ [key ++ lit " " ++ val]))
    [].

(** Lines 339-345: the handler of the [try] statement; it leaves by an
    exception on every path. *)
Definition racial_mods_handler (monster_in : value) (k s x : value) (e : exn)
  : M unit :=
  print Stdout [exn_text e] ;;
  title1 <- item monster_in "title1" ;;
  print Stdout [py_str title1] ;;
  print Stdout [py_str k] ;;
  print Stdout [py_str s] ;;
  print Stdout [py_str x] ;;
  raise SystemExit.

(** Lines 331-345: one round of the loop over the racial modifiers, [x]
    being [monster_in['skills']['_racial_mods'][s]].  The [for] statement
    inside [try] iterates [x], which has just answered [in]: it is a dict,
    a list or a string, and iterating it cannot raise (lemma
    [has_iterable]).  The handler never returns, so catching round by round
    is catching around the loop, with [k] the item that failed. *)
Definition racial_mod (monster_in : value) (f : stream) (mods s : value)
  : M unit :=
  x <- getitem mods s ;;
  b <- has "_" x ;;
  if b then
    v <- item x "_" ;;
    print f [lit "-"; py_str s; py_str v]
  else if is_lit s "_other" then
    print f [lit "-"; py_str x]
  else
    ks <- iter x ;;
    for_each ks (fun k =>
      try_except (v <- getitem x k ;;
                  print f [lit "-"; py_str s; py_str v])
                 (racial_mods_handler monster_in k s x)).

(** Lines 314-345. *)
Definition step_skills (monster_in : value) (f : stream) (keys_used : bool)
  : M unit :=
  used keys_used "skills" ;;
  b <- has "skills" monster_in ;;
  when b (skills <- item monster_in "skills" ;;
          items <- skills_items skills ;;
          print f [lit "skills:"; wq (join (lit ", ") items)] ;;
          b <- has "_racial_mods" skills ;;
          when b (print f [lit "racial_modifiers:"] ;;
                  mods <- item skills "_racial_mods" ;;
                  ss <- iter mods ;;
                  for_each ss (racial_mod monster_in f mods))).

(** Lines 347-353. *)
Definition step_languages (monster_in : value) (f : stream) (keys_used : bool)
  : M unit :=
  used keys_used "languages" ;;
  print_joined monster_in f "languages:" "languages".

Definition step_special_qualities (monster_in : value) (f : stream)
  (keys_used : bool) : M unit :=
  used keys_used "special_qualities" ;;
  print_joined monster_in f "special_qualities:" "special_qualities".

(** Lines 355-360. *)
Definition step_gear (monster_in : value) (f : stream) (keys_used : bool)
  : M unit :=
  used keys_used "gear" ;;
  b <- has "gear" monster_in ;;
  when b (print f [lit "gear:"] ;;
          gear <- item monster_in "gear" ;;
          ks <- iter gear ;;
          for_each ks (fun k =>
            print f [lit "  - name:"; py_str k] ;;
            v <- getitem gear k ;;
            j <- py_join ", " v ;;
            to_desc (VStr j) f)).

(** Lines 362-375. *)
Definition step_ecology (monster_in : value) (f : stream) (keys_used : bool)
  : M unit :=
  used keys_used "ecology" ;;
  b <- has "ecology" monster_in ;;
  when b (print f [lit "ecology:"] ;;
          ecology <- item monster_in "ecology" ;;
          b <- has "environment" ecology ;;
          when b (print f [lit "  - name: Environment"] ;;
                  v <- item ecology "environment" ;;
                  to_desc v f) ;;
          b <- has "organization" ecology ;;
          when b (print f [lit "  - name: Organisation"] ;;
                  v <- item ecology "organization" ;;
                  to_desc v f) ;;
          b <- has "treasure" ecology ;;
          b <- (if b then has "treasure_type" ecology else ret false) ;;
          if b then
            print f [lit "  - name: Treasure"] ;;
            v <- item ecology "treasure_type" ;;
            treasure_type <- need_str v ;;
            t <- item ecology "treasure" ;;
            j <- py_join ", " t ;;
            to_desc (VStr (treasure_type ++ lit " (" ++ j ++ lit ")")) f
          else
            b <- has "treasure_type" ecology ;;
            when b (v <- item ecology "treasure_type" ;;
                    to_desc v f)).

(** Lines 377-382. *)
Definition step_special_abilities (monster_in : value) (f : stream)
  (keys_used : bool) : M unit :=
  used keys_used "special_abilities" ;;
  b <- has "special_abilities" monster_in ;;
  when b (print f [lit "special_abilities:"] ;;
          abilities <- item monster_in "special_abilities" ;;
          ks <- keys_of abilities ;;
          for_each ks (fun sa =>
            print f [lit "  - name:"; py_str sa] ;;
            v <- getitem abilities sa ;;
            to_desc v f)).

(** Lines 395-402: the level of a spell entry, as text, and the text of
    the spell: count, name and DC. *)
Definition spell_fields (entry : value) : M (pystr * pystr) :=
  level <- item entry "level" ;;
  let this_level := py_str level in
  b <- has "count" entry ;;
  this_count <- (if b then c <- item entry "count" ;; ret (py_str c ++ lit "x")
                 else ret []) ;;
  b <- has "DC" entry ;;
  this_dc <- (if b then d <- item entry "DC" ;;
                        ret (lit " (DC" ++ py_str d ++ lit ")")
              else ret []) ;;
  n <- item entry "name" ;;
  name <- need_str n ;;
  let this_spell := this_count ++ name in
  ret (this_level, this_spell ++ this_dc).

(** Lines 403-406: the spell goes after the spells already listed for its
    level. *)
Definition add_spell (spells : list (pystr * pystr)) (spell : pystr * pystr)
  : list (pystr * pystr) :=
  let (this_level, text) := spell in
  match lookup this_level spells with
  | Some old => dict_set this_level (old ++ lit ", " ++ text) spells
  | None => dict_set this_level text spells
  end.

(** Lines 394-406: one round of the loop that fills the local dictionary
    [spells], from a level's text to the spells of that level. *)
Definition spell_entry (spells : list (pystr * pystr)) (entry : value)
  : M (list (pystr * pystr)) :=
  spell <- spell_fields entry ;;
  ret (add_spell spells spell).

(** Lines 393-406: the dictionary [spells]; the spell source is not
    consulted. *)
Definition spells_by_level (entries : value) : M (list (pystr * pystr)) :=
  es <- iter entries ;;
  fold_m es spell_entry [].

Definition nth : list (pystr * pystr) :=
  [(lit "1", lit "st"); (lit "2", lit "nd"); (lit "3", lit "rd")].

(** Lines 409-414: the level with its ordinal suffix. *)
Definition ordinal (key : pystr) : pystr :=
  match lookup key nth with
  | Some suffix => key ++ suffix
  | None => if negb (pystr_eqb key (lit "0")) then key ++ lit "th" else key
  end.

(** Lines 409-419: the header of one spell level. *)
Definition spell_header (source : value) (key : pystr) : M pystr :=
  let header := ordinal key in
  b <- has "slots" source ;;
  b <- (if b then slots <- item source "slots" ;; contains (VStr key) slots
        else ret false) ;;
  if b then
    if pystr_eqb key (lit "0") then ret (header ++ lit " (at-will)")
    else
      n <- (slots <- item source "slots" ;; getitem slots (VStr key)) ;;
      ret (header ++ lit " (" ++ py_str n ++ lit "/day)")
  else ret header.

(** Lines 408-421: the entries of the spell levels under one source. *)
Definition spell_levels (source : value) (f : stream)
  (spells : list (pystr * pystr)) : M unit :=
  for_each spells (fun kv =>
    header <- spell_header source (fst kv) ;;
    print f [lit "  - name:"; header] ;;
    to_desc (VStr (snd kv)) f).

(** Lines 387-421: what is printed for one spell source. *)
Definition spell_source (monster_in : value) (f : stream) (source : value)
  : M unit :=
  t <- item source "type" ;;
  (if is_lit t "prepared" then print f [lit "spells_prepared:"]
   else when (is_lit t "known") (print f [lit "known_spells:"])) ;;
  print f [lit "  - name:"] ;;
  cl <- item source "CL" ;;
  to_desc (VStr (lit "(CL " ++ py_str cl ++ lit ")")) f ;;
  entries <- path monster_in ["spells"; "entries"]%string ;;
  spells <- spells_by_level entries ;;
  spell_levels source f spells.

(** Lines 384-421. *)
Definition step_spells (monster_in : value) (f : stream) (keys_used : bool)
  : M unit :=
  used keys_used "spells" ;;
  b <- has "spells" monster_in ;;
  when b (sources <- path monster_in ["spells"; "sources"]%string ;;
          ss <- iter sources ;;
          for_each ss (spell_source monster_in f)).

(** Lines 430-437: one item of the list [psychic_magic]. *)
Definition psychic_entry (entry : value) : M value :=
  b <- has "DC" entry ;;
  this_dc <- (if b then d <- item entry "DC" ;; ret (lit "; DC" ++ py_str d)
              else ret []) ;;
  b <- has "PE" entry ;;
  if b then
    n <- item entry "name" ;;
    name <- need_str n ;;
    pe <- item entry "PE" ;;
    ret (VStr (name ++ lit " (PE" ++ py_str pe ++ this_dc ++ lit ")"))
  else item entry "name".

(** Lines 423-439. *)
Definition step_psychic_magic (monster_in : value) (f : stream)
  (keys_used : bool) : M unit :=
  used keys_used "psychic_magic" ;;
  b <- has "psychic_magic" monster_in ;;
  when b (sources <- path monster_in ["psychic_magic"; "sources"]%string ;;
          ss <- iter sources ;;
          for_each ss (fun source =>
            print f [lit "psychic_magic:"] ;;
            print f [lit "  - name:"] ;;
            cl <- item source "CL" ;;
            c <- item source "concentration" ;;
            conc <- format_plus c ;;
            to_desc (VStr (py_str cl ++ lit "; Concentration " ++ conc ++ lit ")")) f ;;
            entries <- path monster_in ["psychic_magic"; "entries"]%string ;;
            es <- iter entries ;;
            psychic_magic <- map_m psychic_entry es ;;
            pe <- path monster_in ["psychic_magic"; "PE"]%string ;;
            print f [lit "  - name:"; py_str pe; lit "PE"] ;;
            j <- join_values ", " psychic_magic ;;
            to_desc (VStr j) f)).

(** The local dictionary [sla]: its keys are the [freq] values of the
    entries, compared as Python compares dictionary keys. *)
Fixpoint sla_lookup (k : value) (sla : list (value * pystr)) : option pystr :=
  match sla with
  | [] => None
  | (k', v) :: sla' => if py_eq k' k then Some v else sla_lookup k sla'
  end.

Fixpoint sla_set (k : value) (v : pystr) (sla : list (value * pystr))
  : list (value * pystr) :=
  match sla with
  | [] => [(k, v)]
  | (k', v') :: sla' =>
      if py_eq k' k then (k', v) :: sla' else (k', v') :: sla_set k v sla'
  end.

(** Lines 454-468: one round of the loop that fills [sla] for the source
    [source]; entries of another source are passed over. *)
Definition sla_entry (source : value) (sla : list (value * pystr))
  (entry : value) : M (list (value * pystr)) :=
  entry_source <- item entry "source" ;;
  source_name <- item source "name" ;;
  if negb (py_eq entry_source source_name) then ret sla
  else
    freq <- item entry "freq" ;;
    (if hashable freq then ret tt else raise TypeError) ;;
    b <- has "DC" entry ;;
    dc <- (if b then d <- item entry "DC" ;;
                     ret (lit " (DC " ++ py_str d ++ lit ")")
           else ret []) ;;
    n <- item entry "name" ;;
    name <- need_str n ;;
    ret match sla_lookup freq sla with
        | Some old => sla_set freq (old ++ lit ", " ++ name ++ dc) sla
        | None => sla_set freq (name ++ dc) sla
        end.

(** Lines 453-468: the dictionary [sla] of one source. *)
Definition sla_by_freq (source entries : value) : M (list (value * pystr)) :=
  es <- iter entries ;;
  fold_m es (sla_entry source) [].

(** Lines 445-471: what is printed for one source of spell-like
    abilities. *)
Definition sla_source (monster_in : value) (f : stream) (source : value)
  : M unit :=
  n <- item source "name" ;;
  (if is_lit n "default" then print f [lit "  - name:"]
   else print f [lit "  - name:"; py_str n]) ;;
  b <- has "concentration" source ;;
  (if b then
     cl <- item source "CL" ;;
     c <- item source "concentration" ;;
     conc <- format_plus c ;;
     to_desc (VStr (lit "(CL " ++ py_str cl ++ lit "; Concentration "
                    ++ conc ++ lit ")")) f
   else
     cl <- item source "CL" ;;
     to_desc (VStr (lit "(CL " ++ py_str cl ++ lit ")")) f) ;;
  entries <- path monster_in ["spell_like_abilities"; "entries"]%string ;;
  sla <- sla_by_freq source entries ;;
  for_each sla (fun kv =>
    print f [lit "  - name:"; py_str (fst kv)] ;;
    to_desc (VStr (snd kv)) f).

(** Lines 441-471. *)
Definition step_spell_like_abilities (monster_in : value) (f : stream)
  (keys_used : bool) : M unit :=
  used keys_used "spell_like_abilities" ;;
  b <- has "spell_like_abilities" monster_in ;;
  when b (print f [lit "spell-like_abilities:"] ;;
          sources <- path monster_in ["spell_like_abilities"; "sources"]%string ;;
          ss <- iter sources ;;
          for_each ss (sla_source monster_in f)).

(** Lines 473-478. *)
Definition step_sources (monster_in : value) (f : stream) (keys_used : bool)
  : M unit :=
  used keys_used "sources" ;;
  b <- has "sources" monster_in ;;
  when b (print f [lit "sources:"] ;;
          sources <- item monster_in "sources" ;;
          ss <- iter sources ;;
          for_each ss (fun source =>
            n <- item source "name" ;;
            name <- py_replace_char n ch_hash "No. " ;;
            print f [lit "  - name:"; wq name] ;;
            page <- item source "page" ;;
            to_desc (VStr (py_str page)) f)).

(** Lines 480-484. *)
Definition step_desc_short (monster_in : value) (f : stream) (keys_used : bool)
  : M unit :=
  used keys_used "desc_short" ;;
  b <- has "desc_short" monster_in ;;
  when b (print_field monster_in f "desc_short:" "desc_short") ;;
  print f [lit "```"].

(** Lines 486-489. *)
Definition step_desc_long (monster_in : value) (f : stream) (keys_used : bool)
  : M unit :=
  used keys_used "desc_long" ;;
  b <- has "desc_long" monster_in ;;
  when b (print f [lit "# Description"] ;;
          v <- item monster_in "desc_long" ;;
          print f [py_str v]).

(** Lines 491-493. *)
Definition step_url (f : stream) (url : option pystr) : M unit :=
  match url with
  | Some u =>
      print f [lit "# Source Link"] ;;
      print f [lit "[Archives of Nethys](" ++ u ++ lit ")"]
  | None => ret tt
  end.

(** Lines 495-499. *)
Definition step_encounter_table (monster_name : value) (f : stream) : M unit :=
  print f [lit "```encounter-table"] ;;
  print f [lit "name:"; py_str monster_name] ;;
  print f [lit "creatures:"] ;;
  print f [lit "  - 1:"; py_str monster_name] ;;
  print f [lit "```"].

(** The statements of [write_monster_to_file] after the first two, in
    order. *)
Definition steps (monster_in monster_name : value) (f : stream)
  (source_dict keys_used : bool) (url : option pystr) : list (M unit) :=
  [ step_front_matter monster_name f;
    step_source monster_in f source_dict;
    step_CR monster_in f keys_used;
    step_name monster_name f keys_used;
    step_XP monster_in f keys_used;
    step_race monster_in f keys_used;
    step_classes monster_in f keys_used;
    step_alignment monster_in f keys_used;
    step_size monster_in f keys_used;
    step_type monster_in f keys_used;
    step_subtypes monster_in f keys_used;
    step_initiative monster_in f keys_used;
    step_perception monster_in f;
    step_senses monster_in f keys_used;
    step_auras monster_in f keys_used;
    step_AC monster_in f keys_used;
    step_HP monster_in f keys_used;
    step_HD monster_in f keys_used;
    step_saves monster_in f keys_used;
    step_immunities monster_in f keys_used;
    step_resistances monster_in f keys_used;
    step_DR monster_in f keys_used;
    step_defensive_abilities monster_in f keys_used;
    step_SR monster_in f keys_used;
    step_weaknesses monster_in f keys_used;
    step_speeds monster_in f keys_used;
    step_attacks monster_in f keys_used;
    step_space monster_in f keys_used;
    step_reach monster_in f keys_used;
    step_tactics monster_in f keys_used;
    step_ability_scores monster_in f keys_used;
    step_BAB monster_in f keys_used;
    step_CM "CMB" monster_in f keys_used;
    step_CM "CMD" monster_in f keys_used;
    step_feats monster_in f keys_used;
    step_skills monster_in f keys_used;
    step_languages monster_in f keys_used;
    step_special_qualities monster_in f keys_used;
    step_gear monster_in f keys_used;
    step_ecology monster_in f keys_used;
    step_special_abilities monster_in f keys_used;
    step_spells monster_in f keys_used;
    step_psychic_magic monster_in f keys_used;
    step_spell_like_abilities monster_in f keys_used;
    step_sources monster_in f keys_used;
    step_desc_short monster_in f keys_used;
    step_desc_long monster_in f keys_used;
    step_url f url;
    step_encounter_table monster_name f ].

(** Statements one after the other. *)
Definition in_order (l : list (M unit)) : M unit := for_each l (fun c => c).

(** [write_monster_to_file(monster_in, f, source_dict, keys_used, url)]:
    the record is a dict; [source_dict] and [keys_used] say whether the
    argument is the dictionary or [None]. *)
Definition write_monster_to_file (monster_in : dict) (f : stream)
  (source_dict keys_used : bool) (url : option pystr) : M unit :=
  monster_name <- item (VDict monster_in) "title2" ;;
  used keys_used "title2" ;;
  in_order (steps (VDict monster_in) monster_name f source_dict keys_used url).

(** ** Files, standard output and the batch driver *)

(** The world the program acts on: the files of the output folder (a path
    and the lines printed to it), standard output, and the three
    dictionaries of the driver, of which only the keys matter (every value
    is [True]). *)
Record world := {
  w_files : list (pystr * list pystr);
  w_stdout : list pystr;
  w_keys_present : list pystr;
  w_keys_used : list pystr;
  w_source_dict : list value
}.

Definition to_stdout (line : pystr) (w : world) : world :=
  {| w_files := w_files w;
     w_stdout := w_stdout w ++ [line];
     w_keys_present := w_keys_present w;
     w_keys_used := w_keys_used w;
     w_source_dict := w_source_dict w |}.

Definition set_files (files : list (pystr * list pystr)) (w : world) : world :=
  {| w_files := files;
     w_stdout := w_stdout w;
     w_keys_present := w_keys_present w;
     w_keys_used := w_keys_used w;
     w_source_dict := w_source_dict w |}.

(** [d[k] = True] on a dictionary kept as its list of keys. *)
Definition add_key (k : pystr) (d : list pystr) : list pystr :=
  if existsb (pystr_eqb k) d then d else d ++ [k].

Definition add_value_key (k : value) (d : list value) : list value :=
  if existsb (fun k' => py_eq k' k) d then d else d ++ [k].

(** The effect of one event, [file] being the path of the open file. *)
Definition apply_event (file : option pystr) (w : world) (e : event) : world :=
  match e with
  | Emit Stdout text => to_stdout text w
  | Emit OutFile text =>
      match file with
      | Some name =>
          match lookup name (w_files w) with
          | Some lines => set_files (dict_set name (lines ++ [text]) (w_files w)) w
          | None => set_files (dict_set name [text] (w_files w)) w
          end
      | None => to_stdout text w
      end
  | KeyUsed k =>
      {| w_files := w_files w;
         w_stdout := w_stdout w;
         w_keys_present := w_keys_present w;
         w_keys_used := add_key k (w_keys_used w);
         w_source_dict := w_source_dict w |}
  | SourceSeen k =>
      {| w_files := w_files w;
         w_stdout := w_stdout w;
         w_keys_present := w_keys_present w;
         w_keys_used := w_keys_used w;
         w_source_dict := add_value_key k (w_source_dict w) |}
  end.

Definition apply_events (file : option pystr) (evs : list event) (w : world)
  : world :=
  fold_left (apply_event file) evs w.

(** The diagnostic of line 72. *)
Definition exists_message (filename : pystr) (url : option pystr) : pystr :=
  join (lit " ")
       [lit "ERROR: file"; filename; lit "already exists while processing key";
        match url with Some u => u | None => lit "None" end].

(** [write_monster(monster_in, filename, source_dict, keys_used, url)].
    [open(filename, 'x')] raises [FileExistsError] when the path is taken,
    and creates an empty file otherwise; what was printed stays in the file
    when the formatter raises. *)
Definition write_monster (monster_in : dict) (filename : option pystr)
  (source_dict keys_used : bool) (url : option pystr) (w : world)
  : world * result unit :=
  match filename with
  | None =>
      let (evs, r) := write_monster_to_file monster_in Stdout false false None in
      (apply_events None evs w, r)
  | Some name =>
      if has_key name (w_files w) then
        (to_stdout (exists_message name url) w, Ok tt)
      else
        let w' := set_files (dict_set name [] (w_files w)) w in
        let (evs, r) :=
          write_monster_to_file monster_in OutFile source_dict keys_used url in
        (apply_events (Some name) evs w', r)
  end.

(** [os.path.join(a, b)]. *)
Definition path_join (a b : pystr) : pystr :=
  match b with
  | c :: _ => if (c =? ch_slash)%N then b
              else match a with
                   | [] => b
                   | _ => if (last a 0 =? ch_slash)%N then a ++ b
                          else a ++ [ch_slash] ++ b
                   end
  | [] => match a with
          | [] => b
          | _ => if (last a 0 =? ch_slash)%N then a ++ b
                 else a ++ [ch_slash] ++ b
          end
  end.

(** The file name of lines 574 and 577, for a title that is a string. *)
Definition file_name (outpath key title : pystr) : pystr :=
  let name := replace_char ch_slash (lit " or ") title ++ lit ".md" in
  if is_substring (lit "NPCDisplay") key
  then path_join outpath (lit "NPC " ++ name)
  else path_join outpath name.

(** The record after line 575, for a title that is a string: under an NPC
    key the title in the record gets the prefix too. *)
Definition retitled (key title : pystr) (monster_in : dict) : dict :=
  if is_substring (lit "NPCDisplay") key
  then dict_set (lit "title2") (VStr (lit "NPC " ++ title)) monster_in
  else monster_in.

(** Lines 571-579, the body of the [try] statement.  [subdir] is computed
    and never used; all it can do is raise [IndexError] for a key with
    fewer than three slashes.  [.replace] exists on a string only. *)
Definition try_body (outpath key : pystr) (monster_in : dict) (w : world)
  : world * result unit :=
  match nth_error (split_char ch_slash key) 3 with
  | None => (w, Raise IndexError)
  | Some _ =>
      match lookup (lit "title2") monster_in with
      | None => (w, Raise (KeyError (VStr (lit "title2"))))
      | Some (VStr title) =>
          let fname := file_name outpath key title in
          write_monster (retitled key title monster_in) (Some fname) true true
                        (Some key) w
      | Some _ => (w, Raise AttributeError)
      end
  end.

(** The line that the [except] clause of line 580 prints. *)
Definition error_message (e : exn) (key : pystr) : pystr :=
  join (lit " ") [lit "ERROR: "; exn_text e; lit "with"; key].

(** How the body of the driver's loop ends for one record. *)
Inductive outcome :=
| Continue (w : world)
| Terminated (e : exn) (w : world).

(** Lines 566-581: one round of the driver's loop. *)
Definition process_record (outpath key : pystr) (monster_in : dict) (w : world)
  : outcome :=
  let w :=
    {| w_files := w_files w;
       w_stdout := w_stdout w;
       w_keys_present := fold_left (fun d k => add_key k d) (keys monster_in)
                                   (w_keys_present w);
       w_keys_used := w_keys_used w;
       w_source_dict := w_source_dict w |} in
  match try_body outpath key monster_in w with
  | (w', Ok _) => Continue w'
  | (w', Raise (KeyError k)) =>
      Continue (to_stdout (error_message (KeyError k) key) w')
  | (w', Raise TypeError) =>
      Continue (to_stdout (error_message TypeError key) w')
  | (w', Raise e) => Terminated e w'
  end.

(** Lines 565-581: the loop over the corpus. *)
Fixpoint main_loop (outpath : pystr) (d : list (pystr * dict)) (w : world)
  : outcome :=
  match d with
  | [] => Continue w
  | (key, monster_in) :: d' =>
      match process_record outpath key monster_in w with
      | Continue w' => main_loop outpath d' w'
      | Terminated e w' => Terminated e w'
      end
  end.

End Formatter.

(** ** A record of the corpus, for examples *)

Definition str (s : string) : value := VStr (lit s).
Definition field (k : string) (v : value) : pystr * value := (lit k, v).

(** A record in the shape of the corpus, with every field that the
    formatter subscripts without a test. *)
Definition goblin : dict :=
  [ field "title2" (str "Goblin");
    field "CR" (str "1/3");
    field "XP" (VInt 135);
    field "alignment" (str "NE");
    field "size" (str "Small");
    field "type" (str "humanoid");
    field "subtypes" (VList [str "goblinoid"]);
    field "initiative" (VDict [field "bonus" (VInt 6)]);
    field "senses" (VDict [field "darkvision" (VInt 60)]);
    field "skills" (VDict [field "Perception" (VDict [field "_" (VInt (-1))]);
                           field "Stealth" (VDict [field "_" (VInt 10)])]);
    field "AC" (VDict [field "AC" (VInt 16); field "touch" (VInt 13);
                       field "flat_footed" (VInt 14);
                       field "components" (VDict [field "armor" (VInt 2);
                                                  field "Dex" (VInt 2)])]);
    field "HP" (VDict [field "HP" (VInt 6); field "long" (str "1d10+1")]);
    field "saves" (VDict [field "fort" (VInt 3); field "ref" (VInt 2);
                          field "will" (VInt (-1))]);
    field "speeds" (VDict [field "base" (VInt 30)]);
    field "ability_scores" (VDict [field "STR" (VInt 11); field "DEX" (VInt 15);
                                   field "CON" (VInt 12); field "INT" (VInt 10);
                                   field "WIS" (VInt 9); field "CHA" (VInt 6)]);
    field "BAB" (VInt 1);
    field "CMB" (VInt 0);
    field "CMD" (VInt 12);
    field "sources" (VList [VDict [field "name" (str "Bestiary");
                                   field "page" (VInt 156)]]) ].

(** A record with two spell sources. *)
Definition cleric_sources : value :=
  VList [VDict [field "type" (str "prepared"); field "CL" (VInt 5);
                field "slots" (VDict [field "0" (VInt 4); field "1" (VInt 3)])];
         VDict [field "type" (str "known"); field "CL" (VInt 3)]].

Definition cleric_entries : value :=
  VList [VDict [field "level" (VInt 1); field "name" (str "bless")];
         VDict [field "level" (VInt 0); field "name" (str "guidance")];
         VDict [field "level" (VInt 1); field "name" (str "command");
                field "count" (VInt 2); field "DC" (VInt 12)]].

Definition cleric : dict :=
  [ field "title2" (str "Cleric");
    field "spells" (VDict [field "sources" cleric_sources;
                           field "entries" cleric_entries]) ].




(** A key of the corpus, the default output folder, and two states of the
    world: nothing written yet, and the goblin's file already there. *)
Definition goblin_key : pystr :=
  lit "https://aonprd.com/MonsterDisplay.aspx?ItemName=Goblin".

Definition bestiary : pystr := lit "bestiary/".

Definition empty_world : world :=
  {| w_files := []; w_stdout := []; w_keys_present := []; w_keys_used := [];
     w_source_dict := [] |}.

Definition taken_world : world :=
  {| w_files := [(lit "bestiary/Goblin.md", [lit "kept"])]; w_stdout := [];
     w_keys_present := []; w_keys_used := []; w_source_dict := [] |}.

(** For the examples, which print no character above ASCII and no
    [TypeError]: a table without printable code points above ASCII, and a
    text. *)
Definition no_unicode : N -> bool := fun _ => false.
Definition some_text : pystr := lit "TypeError".

(** ** Vocabulary of the properties *)

(** A computation that prints nothing and records nothing. *)
Definition pure {A : Type} (c : M A) : Prop := fst c = [].

(** The texts that a run printed, in order. *)
Definition printed (evs : list event) : list pystr :=
  flat_map (fun e => match e with Emit _ text => [text] | _ => [] end) evs.

(** The line that [to_desc] prints for a string. *)
Definition desc_text (s : pystr) : pystr :=
  lit "    desc: " ++ dq ++ unicode_escape s ++ dq.


(** The spells of one level, in the order of the entries. *)
Definition spells_of_level (key : pystr) (fields : list (pystr * pystr))
  : list pystr :=
  map snd (filter (fun kv => pystr_eqb (fst kv) key) fields).



(** What the formatter reads of an entry of [spells]: the level, the
    count and the DC if they are there, and the name, a string. *)
Record spell := {
  sp_level : value;
  sp_count : option value;
  sp_DC : option value;
  sp_name : pystr
}.




(** What the formatter reads of an entry of [spell_like_abilities]: the
    source it belongs to, the frequency and the name, both strings, and
    the DC if it is there. *)
Record ability := {
  ab_source : value;
  ab_freq : pystr;
  ab_DC : option value;
  ab_name : pystr
}.




Section Blocks.

Variable isprintable : N -> bool.








End Blocks.

(** The texts that a run printed to standard output. *)
Definition stdout_texts (evs : list event) : list pystr :=
  flat_map (fun e => match e with Emit Stdout text => [text] | _ => [] end) evs.

(** A computation that prints nothing to standard output. *)
Definition quiet {A : Type} (c : M A) : Prop := stdout_texts (fst c) = [].

(** The statements [l'] raise [e], without a word on standard output,
    whenever the statements [l] end well. *)
Definition fails_after (e : exn) (l' l : list (M unit)) : Prop :=
  forall evs, in_order l = (evs, Ok tt) ->
  exists evs', in_order l' = (evs', Raise e) /\ stdout_texts evs' = [].

(** The fields that the specification calls required. *)
Definition mandatory_fields : list pystr :=
  map lit ["title2"; "CR"; "XP"; "alignment"; "size"; "type"; "initiative";
           "AC"; "HP"; "saves"; "speeds"; "ability_scores"; "BAB"; "CMB";
           "CMD"]%string.

(** The place, among the statements of the formatter, of the statement
    that uses a mandatory field first; the title is read before them
    all. *)
Definition first_use : list (pystr * nat) :=
  [ (lit "title2", 0%nat); (lit "CR", 2%nat); (lit "XP", 4%nat);
    (lit "alignment", 7%nat); (lit "size", 8%nat); (lit "type", 9%nat);
    (lit "initiative", 11%nat); (lit "AC", 15%nat); (lit "HP", 16%nat);
    (lit "saves", 18%nat); (lit "speeds", 25%nat);
    (lit "ability_scores", 30%nat); (lit "BAB", 31%nat); (lit "CMB", 32%nat);
    (lit "CMD", 33%nat) ].

(** The statements carried out before the field [k] is used. *)
Definition statements_before (k : pystr) (l : list (M unit)) : list (M unit) :=
  match lookup k first_use with
  | Some n => firstn n l
  | None => l
  end.

(** Nothing goes wrong before the field [k] is used: the record has a
    title, and the statements of the formatter before the first use of [k]
    end well. *)
Definition sound_before (isprintable : N -> bool) (TypeError_text : pystr)
  (k : pystr) (monster_in : dict) (url : option pystr) : Prop :=
  exists name : value,
    lookup (lit "title2") monster_in = Some name
    /\ snd (in_order
              (statements_before k
                 (steps isprintable TypeError_text (VDict monster_in) name
                        OutFile true true url)))
       = Ok tt.


(** ** Vocabulary of the further properties *)

(** The texts that a run printed to the open file. *)
Definition file_texts (evs : list event) : list pystr :=
  flat_map (fun e => match e with Emit OutFile text => [text] | _ => [] end) evs.

(** The world in which a run of the driver's loop ends. *)
Definition world_of (o : outcome) : world :=
  match o with
  | Continue w => w
  | Terminated _ w => w
  end.

(** The steps that test for their field before they subscript it, each
    with the field. *)
Definition optional_steps (isprintable : N -> bool) (TypeError_text : pystr)
  : list (string * (value -> stream -> bool -> M unit)) :=
  [ ("race", step_race isprintable);
    ("classes", step_classes);
    ("subtypes", step_subtypes);
    ("senses", step_senses isprintable);
    ("auras", step_auras);
    ("immunities", step_immunities);
    ("resistances", step_resistances isprintable);
    ("DR", step_DR isprintable);
    ("defensive_abilities", step_defensive_abilities);
    ("SR", step_SR isprintable);
    ("weaknesses", step_weaknesses);
    ("attacks", step_attacks);
    ("space", step_space isprintable);
    ("reach", step_reach isprintable);
    ("tactics", step_tactics isprintable);
    ("feats", step_feats);
    ("skills", step_skills isprintable TypeError_text);
    ("languages", step_languages);
    ("special_qualities", step_special_qualities);
    ("gear", step_gear isprintable);
    ("ecology", step_ecology isprintable);
    ("special_abilities", step_special_abilities isprintable);
    ("spells", step_spells isprintable);
    ("psychic_magic", step_psychic_magic isprintable);
    ("spell_like_abilities", step_spell_like_abilities isprintable);
    ("sources", step_sources isprintable);
    ("desc_long", step_desc_long isprintable) ]%string.

(** The two shapes of an entry of the [components] table of the armour
    class: a bonus, or a list of remarks. *)
Inductive component :=
| Bonus (z : Z)
| Remarks (l : list pystr).

Definition component_value (c : component) : value :=
  match c with
  | Bonus z => VInt z
  | Remarks l => VList (map VStr l)
  end.

Definition components_table (comps : list (pystr * component)) : value :=
  VDict (map (fun kc => (fst kc, component_value (snd kc))) comps).

(** The bonuses of a components table, each as its key and its signed
    value, and its remarks, each list after a semicolon. *)
Fixpoint bonus_texts (comps : list (pystr * component)) : list pystr :=
  match comps with
  | [] => []
  | (k, Bonus z) :: rest => (k ++ lit " " ++ signed_of_Z z) :: bonus_texts rest
  | (_, Remarks _) :: rest => bonus_texts rest
  end.

Fixpoint remarks_text (comps : list (pystr * component)) : pystr :=
  match comps with
  | [] => []
  | (_, Bonus _) :: rest => remarks_text rest
  | (_, Remarks l) :: rest => lit "; " ++ join (lit ", ") l ++ remarks_text rest
  end.

(** An entry of the speeds table that the loop of lines 236-243 prints,
    and the text it prints for it. *)
Definition other_speed (kv : pystr * value) : bool :=
  negb (pystr_eqb (fst kv) (lit "base"))
  && negb (pystr_eqb (fst kv) (lit "fly"))
  && negb (pystr_eqb (fst kv) (lit "fly_maneuverability")).

Definition speed_text (isprintable : N -> bool) (kv : pystr * value) : pystr :=
  if pystr_eqb (fst kv) (lit "base_other")
  then lit " " ++ py_str isprintable (snd kv)
  else fst kv ++ lit " " ++ py_str isprintable (snd kv) ++ lit " ft.".

(** An entry of the skills table that the skills line lists, and the text
    of a score: the signed number, or nothing for [None]. *)
Definition listed_skill (kv : pystr * value) : bool :=
  negb (pystr_eqb (fst kv) (lit "_racial_mods")).

Definition score_text (v : value) : pystr :=
  match v with
  | VDict e => match lookup (lit "_") e with
               | Some (VInt z) => signed_of_Z z
               | _ => []
               end
  | _ => []
  end.

Definition plain_score (v : value) : Prop :=
  exists e, v = VDict e
            /\ (lookup (lit "_") e = Some VNone
                \/ exists z, lookup (lit "_") e = Some (VInt z)).

(** Lines 531-544: the record key that the [-t] option selects, [None]
    when no branch binds [example].  [args.test] is compared with the
    integers 1 to 6. *)
Definition select_example (test : value) : option pystr :=
  if py_eq test (VInt 1) then
    Some (lit "https://aonprd.com/MonsterDisplay.aspx?ItemName=Brijidine")
  else if py_eq test (VInt 2) then
    Some (lit "https://aonprd.com/MonsterDisplay.aspx?ItemName=Veranallia")
  else if py_eq test (VInt 3) then
    Some (lit "https://aonprd.com/MonsterDisplay.aspx?ItemName=Uinuja")
  else if py_eq test (VInt 4) then
    Some (lit "https://aonprd.com/MonsterDisplay.aspx?ItemName=Lillend")
  else if py_eq test (VInt 5) then
    Some (lit "https://aonprd.com/MonsterDisplay.aspx?ItemName=Ghaele")
  else if py_eq test (VInt 6) then
    Some (lit "https://aonprd.com/MonsterDisplay.aspx?ItemName=End%27s%20Voice")
  else None.

(** Whether the strings of a list are pairwise different. *)
Fixpoint distinct (l : list pystr) : bool :=
  match l with
  | [] => true
  | x :: rest => negb (existsb (pystr_eqb x) rest) && distinct rest
  end.

(** A code point of a Python [str]: below [0x110000]. *)
Definition code_point (ch : N) : Prop := (ch < 1114112)%N.

(** The escapes that begin with a backslash: the character after it and
    what follows that character. *)
Inductive escaped (ch : N) : N -> pystr -> Prop :=
| escaped_backslash : ch = 92%N -> escaped ch 92 []
| escaped_tab : ch = 9%N -> escaped ch 116 []
| escaped_nl : ch = 10%N -> escaped ch 110 []
| escaped_cr : ch = 13%N -> escaped ch 114 []
| escaped_x : (ch < 16 ^ N.of_nat 2)%N -> escaped ch 120 (hex_digits 2 ch)
| escaped_u : (ch < 16 ^ N.of_nat 4)%N -> escaped ch 117 (hex_digits 4 ch)
| escaped_U : (ch < 16 ^ N.of_nat 6)%N ->
              escaped ch 85 ([48; 48]%N ++ hex_digits 6 ch).

(** * Properties *)

(** ** Equality of strings *)

Lemma pystr_eqb_spec (a b : pystr) : reflect (a = b) (pystr_eqb a b).
Proof.
  revert b; induction a as [|x a IH]; intros [|y b]; simpl;
    try (constructor; congruence).
  destruct (N.eqb_spec x y) as [->|Hne]; simpl.
  - destruct (IH b) as [->|Hne]; constructor; congruence.
  - constructor; congruence.
Qed.

Lemma pystr_eqb_refl (a : pystr) : pystr_eqb a a = true.
Proof. destruct (pystr_eqb_spec a a); congruence. Qed.

Lemma pystr_eqb_eq (a b : pystr) : pystr_eqb a b = true <-> a = b.
Proof. destruct (pystr_eqb_spec a b); split; congruence. Qed.

Lemma pystr_eqb_neq (a b : pystr) : pystr_eqb a b = false <-> a <> b.
Proof. destruct (pystr_eqb_spec a b); split; congruence. Qed.

(** ** The monad *)

Lemma bind_ret (A B : Type) (a : A) (k : A -> M B) : bind (ret a) k = k a.
Proof. unfold bind, ret. destruct (k a); reflexivity. Qed.

Lemma bind_raise (A B : Type) (e : exn) (k : A -> M B) :
  bind (raise e) k = raise e.
Proof. reflexivity. Qed.

Lemma bind_ok (A B : Type) (evs : list event) (a : A) (k : A -> M B) :
  bind (evs, Ok a) k = (evs ++ fst (k a), snd (k a)).
Proof. unfold bind. destruct (k a); reflexivity. Qed.

Lemma bind_fail (A B : Type) (evs : list event) (e : exn) (k : A -> M B) :
  bind (evs, Raise e) k = (evs, Raise e).
Proof. reflexivity. Qed.


Lemma pure_ret (A : Type) (a : A) : pure (ret a).
Proof. reflexivity. Qed.

Lemma pure_raise (A : Type) (e : exn) : pure (@raise A e).
Proof. reflexivity. Qed.

Lemma pure_bind (A B : Type) (c : M A) (k : A -> M B) :
  pure c -> (forall a, pure (k a)) -> pure (bind c k).
Proof.
  unfold pure, bind. destruct c as [evs [a|e]]; simpl; intros -> Hk; [|reflexivity].
  specialize (Hk a). destruct (k a). simpl in *. now subst.
Qed.


Lemma pure_getitem (c k : value) : pure (getitem c k).
Proof.
  unfold getitem. destruct c as [| | | s | l | d]; try apply pure_raise.
  - destruct (as_index k); [destruct (index_list s z)|];
      first [apply pure_ret | apply pure_raise].
  - destruct (as_index k); [destruct (index_list l z)|];
      first [apply pure_ret | apply pure_raise].
  - destruct (hashable k); [|apply pure_raise].
    destruct k; try apply pure_raise.
    destruct (lookup s d); first [apply pure_ret | apply pure_raise].
Qed.

Lemma pure_item (c : value) (k : string) : pure (item c k).
Proof. apply pure_getitem. Qed.

Lemma pure_contains (k c : value) : pure (contains k c).
Proof.
  unfold contains. destruct c; try apply pure_raise; try apply pure_ret.
  - destruct k; first [apply pure_ret | apply pure_raise].
  - destruct (hashable k); first [apply pure_ret | apply pure_raise].
Qed.

Lemma pure_has (k : string) (c : value) : pure (has k c).
Proof. apply pure_contains. Qed.

Lemma pure_iter (c : value) : pure (iter c).
Proof. destruct c; first [apply pure_ret | apply pure_raise]. Qed.

Lemma pure_need_str (v : value) : pure (need_str v).
Proof. destruct v; first [apply pure_ret | apply pure_raise]. Qed.

Lemma pure_path (ks : list string) (c : value) : pure (path c ks).
Proof.
  revert c; induction ks as [|k ks IH]; intros c; simpl; [apply pure_ret|].
  apply pure_bind; [apply pure_item | auto].
Qed.

Lemma pure_map_m (A B : Type) (g : A -> M B) (l : list A) :
  (forall a, pure (g a)) -> pure (map_m g l).
Proof.
  intros Hg. induction l as [|x l IH]; simpl; [apply pure_ret|].
  apply pure_bind; [apply Hg|]. intros y.
  apply pure_bind; [apply IH|]. intros ys. apply pure_ret.
Qed.

Lemma pure_fold_m (A S : Type) (body : S -> A -> M S) (l : list A) (s : S) :
  (forall s a, pure (body s a)) -> pure (fold_m l body s).
Proof.
  intros Hb. revert s; induction l as [|x l IH]; intros s; simpl;
    [apply pure_ret|].
  apply pure_bind; [apply Hb | auto].
Qed.

Create HintDb pure.
#[export] Hint Resolve pure_ret pure_raise pure_getitem pure_item pure_contains
  pure_has pure_iter pure_need_str pure_path : pure.

(** Purity of a computation built from the operations above. *)
Ltac pure_tac :=
  repeat first
    [ solve [auto with pure]
    | apply pure_bind; [|intros]
    | apply pure_map_m; intros
    | apply pure_fold_m; intros
    | match goal with
      | |- pure (if ?b then _ else _) => destruct b
      | |- pure (match ?x with _ => _ end) => destruct x
      end ].

(** A sequence that ends well: both halves did. *)
Lemma bind_ok_inv (A B : Type) (c : M A) (k : A -> M B) (evs : list event) (b : B) :
  bind c k = (evs, Ok b) ->
  exists evs1 a evs2,
    c = (evs1, Ok a) /\ k a = (evs2, Ok b) /\ evs = evs1 ++ evs2.
Proof.
  unfold bind. destruct c as [evs1 [a|e]]; [|discriminate].
  destruct (k a) as [evs2 r] eqn:Hk. intros [= <- ->].
  now exists evs1, a, evs2.
Qed.

Lemma pure_bind_ok_inv (A B : Type) (c : M A) (k : A -> M B)
  (evs : list event) (b : B) :
  pure c -> bind c k = (evs, Ok b) ->
  exists a, c = ret a /\ k a = (evs, Ok b).
Proof.
  intros Hp H. apply bind_ok_inv in H.
  destruct H as (evs1 & a & evs2 & Hc & Hk & ->).
  rewrite Hc in Hp. unfold pure in Hp. simpl in Hp. subst evs1.
  now exists a.
Qed.

(** Statements in a row end well only if each of them does. *)
Lemma in_order_ok_all (l : list (M unit)) (evs : list event) :
  in_order l = (evs, Ok tt) ->
  forall c, In c l -> exists evs', c = (evs', Ok tt).
Proof.
  unfold in_order. revert evs.
  induction l as [|c0 l IH]; intros evs H c Hin; [destruct Hin|].
  cbn [for_each] in H. apply bind_ok_inv in H.
  destruct H as (evs1 & [] & evs2 & Hc0 & Hl & _).
  destruct Hin as [<-|Hin]; [now exists evs1 | eauto].
Qed.

(** What has answered [in] can be iterated: the [for] statement of line
    337 does not raise. *)
Lemma has_iterable (k : string) (x : value) (b : bool) :
  has k x = ret b -> exists items, iter x = ret items.
Proof.
  unfold has, contains, iter. destruct x; try discriminate; intros _; eauto.
Qed.

Lemma pure_join_values (sep : string) (items : list value) :
  pure (join_values sep items).
Proof. unfold join_values. pure_tac. Qed.

Lemma pure_py_join (sep : string) (c : value) : pure (py_join sep c).
Proof.
  unfold py_join. apply pure_bind; [apply pure_iter|].
  intros. apply pure_join_values.
Qed.

Lemma pure_format_plus (v : value) : pure (format_plus v).
Proof. destruct v; first [apply pure_ret | apply pure_raise]. Qed.

Lemma pure_py_replace_char (v : value) (c : N) (new : string) :
  pure (py_replace_char v c new).
Proof. destruct v; first [apply pure_ret | apply pure_raise]. Qed.

Lemma pure_keys_of (c : value) : pure (keys_of c).
Proof. destruct c; first [apply pure_ret | apply pure_raise]. Qed.

#[export] Hint Resolve pure_join_values pure_py_join pure_format_plus
  pure_py_replace_char pure_keys_of : pure.

Lemma pure_signed_list (bonus : value) : pure (signed_list bonus).
Proof. unfold signed_list. pure_tac. Qed.

Lemma pure_has_sub (monster_in : value) (k sub : string) :
  pure (has_sub monster_in k sub).
Proof. unfold has_sub. pure_tac. Qed.

#[export] Hint Resolve pure_signed_list pure_has_sub : pure.

(** *** Standard output *)

Lemma stdout_texts_app (a b : list event) :
  stdout_texts (a ++ b) = stdout_texts a ++ stdout_texts b.
Proof. apply flat_map_app. Qed.

Lemma quiet_pure (A : Type) (c : M A) : pure c -> quiet c.
Proof. unfold pure, quiet. now intros ->. Qed.

Lemma quiet_bind (A B : Type) (c : M A) (k : A -> M B) :
  quiet c -> (forall a, quiet (k a)) -> quiet (bind c k).
Proof.
  unfold quiet, bind. destruct c as [evs [a|e]]; simpl; intros Hc Hk; [|exact Hc].
  specialize (Hk a). destruct (k a) as [evs' r]. simpl in *.
  now rewrite stdout_texts_app, Hc, Hk.
Qed.

Lemma quiet_print (args : list pystr) : quiet (print OutFile args).
Proof. reflexivity. Qed.

Lemma quiet_for_each (A : Type) (body : A -> M unit) (l : list A) :
  (forall a, quiet (body a)) -> quiet (for_each l body).
Proof.
  intros Hb. induction l as [|x l IH]; simpl; [reflexivity|].
  apply quiet_bind; auto.
Qed.

Lemma quiet_used (keys_used : bool) (k : string) : quiet (used keys_used k).
Proof. destruct keys_used; reflexivity. Qed.

Lemma quiet_source_seen (k : value) : quiet (tell [SourceSeen k]).
Proof. reflexivity. Qed.

Lemma fails_here (e : exn) (c c' : M unit) (l l' : list (M unit))
  (evs0 : list event) :
  c' = (evs0, Raise e) -> stdout_texts evs0 = [] ->
  fails_after e (c' :: l') (c :: l).
Proof.
  intros -> Hq evs _. exists evs0. split; [reflexivity | exact Hq].
Qed.

Lemma fails_next (e : exn) (c c' : M unit) (l l' : list (M unit)) :
  c' = c -> quiet c -> fails_after e l' l ->
  fails_after e (c' :: l') (c :: l).
Proof.
  intros -> Hq Hrest evs H.
  unfold in_order in H. cbn [for_each] in H. apply bind_ok_inv in H.
  destruct H as (evs1 & [] & evs2 & Hc & Hl & _).
  destruct (Hrest evs2 Hl) as (evs' & Hl' & Hq').
  exists (evs1 ++ evs'). split.
  - unfold in_order in *. cbn [for_each]. rewrite Hc, bind_ok, Hl'. reflexivity.
  - rewrite stdout_texts_app, Hq'. unfold quiet in Hq. rewrite Hc in Hq.
    simpl in Hq. now rewrite Hq.
Qed.

(** One step of a run: a finished computation is fed to what follows. *)
Ltac mstep :=
  repeat (rewrite bind_ret || rewrite bind_raise || rewrite bind_fail);
  cbv beta.

(** ** Strings and dictionaries *)


Lemma getitem_found (d : dict) (k : pystr) (v : value) :
  lookup k d = Some v -> getitem (VDict d) (VStr k) = ret v.
Proof. intros H. unfold getitem. simpl. now rewrite H. Qed.

Lemma getitem_missing (d : dict) (k : pystr) :
  lookup k d = None -> getitem (VDict d) (VStr k) = raise (KeyError (VStr k)).
Proof. intros H. unfold getitem. simpl. now rewrite H. Qed.

Lemma item_found (d : dict) (k : string) (v : value) :
  lookup (lit k) d = Some v -> item (VDict d) k = ret v.
Proof. apply getitem_found. Qed.

Lemma item_missing (d : dict) (k : string) :
  lookup (lit k) d = None -> item (VDict d) k = raise (KeyError (VStr (lit k))).
Proof. apply getitem_missing. Qed.

Lemma has_dict (d : dict) (k : string) :
  has k (VDict d) = ret (has_key (lit k) d).
Proof. reflexivity. Qed.

Lemma has_key_found (A : Type) (d : list (pystr * A)) (k : pystr) (v : A) :
  lookup k d = Some v -> has_key k d = true.
Proof. unfold has_key. now intros ->. Qed.

Lemma has_key_missing (A : Type) (d : list (pystr * A)) (k : pystr) :
  lookup k d = None -> has_key k d = false.
Proof. unfold has_key. now intros ->. Qed.

Lemma iter_dict (d : dict) : iter (VDict d) = ret (map VStr (keys d)).
Proof. unfold iter, keys. now rewrite map_map. Qed.

Lemma lookup_dict_set_eq (A : Type) (k : pystr) (v : A) (d : list (pystr * A)) :
  lookup k (dict_set k v d) = Some v.
Proof.
  induction d as [|[k' v'] d IH]; simpl.
  - now rewrite pystr_eqb_refl.
  - destruct (pystr_eqb k k') eqn:E; simpl; rewrite E; auto.
Qed.

Lemma lookup_dict_set_ne (A : Type) (k k' : pystr) (v : A) (d : list (pystr * A)) :
  k <> k' -> lookup k' (dict_set k v d) = lookup k' d.
Proof.
  intros Hne. induction d as [|[k0 v0] d IH]; simpl.
  - apply pystr_eqb_neq in Hne.
    destruct (pystr_eqb k' k) eqn:E; [|reflexivity].
    apply pystr_eqb_eq in E. subst. now rewrite pystr_eqb_refl in Hne.
  - destruct (pystr_eqb k k0) eqn:E; simpl.
    + apply pystr_eqb_eq in E. subst k0.
      destruct (pystr_eqb k' k) eqn:E'; [|reflexivity].
      apply pystr_eqb_eq in E'. congruence.
    + destruct (pystr_eqb k' k0); auto.
Qed.

Lemma join_merge (sep a b : pystr) (l : list pystr) :
  join sep ((a ++ sep ++ b) :: l) = join sep (a :: b :: l).
Proof.
  destruct l as [|x l]; simpl; [reflexivity|].
  now rewrite <- !app_assoc.
Qed.

(** The text under a level after more spells were added to a dictionary
    [d]. *)
Lemma lookup_fold_add_spell (key : pystr) (fields d : list (pystr * pystr)) :
  lookup key (fold_left add_spell fields d)
  = match lookup key d, spells_of_level key fields with
    | None, [] => None
    | None, new => Some (join (lit ", ") new)
    | Some old, new => Some (join (lit ", ") (old :: new))
    end.
Proof.
  revert d; induction fields as [|[level text] fields IH]; intros d.
  - simpl. now destruct (lookup key d).
  - cbn [fold_left]. rewrite IH. unfold spells_of_level. cbn [filter fst].
    destruct (pystr_eqb level key) eqn:E.
    + apply pystr_eqb_eq in E. subst level. cbn [map snd add_spell].
      destruct (lookup key d) as [old|].
      * rewrite lookup_dict_set_eq. now rewrite join_merge.
      * rewrite lookup_dict_set_eq. reflexivity.
    + apply pystr_eqb_neq in E. cbn [add_spell].
      destruct (lookup level d) as [old|];
        now rewrite (lookup_dict_set_ne _ _ E).
Qed.

Lemma lookup_delete_ne (A : Type) (k k' : pystr) (d : list (pystr * A)) :
  pystr_eqb k k' = false -> lookup k' (delete k d) = lookup k' d.
Proof.
  intros Hne. unfold delete.
  induction d as [|[k0 v0] d IH]; simpl; [reflexivity|].
  destruct (pystr_eqb k k0) eqn:E; simpl.
  - apply pystr_eqb_eq in E. subst k0.
    destruct (pystr_eqb k' k) eqn:E'; [|exact IH].
    apply pystr_eqb_eq in E'. subst. now rewrite pystr_eqb_refl in Hne.
  - destruct (pystr_eqb k' k0); auto.
Qed.

Lemma lookup_delete_eq (A : Type) (k : pystr) (d : list (pystr * A)) :
  lookup k (delete k d) = None.
Proof.
  unfold delete. induction d as [|[k0 v0] d IH]; simpl; [reflexivity|].
  destruct (pystr_eqb k k0) eqn:E; simpl; [exact IH|]. now rewrite E.
Qed.

Lemma item_delete (k : pystr) (d : dict) (x : string) :
  pystr_eqb k (lit x) = false ->
  item (VDict (delete k d)) x = item (VDict d) x.
Proof.
  intros H. unfold item, getitem. cbn [hashable].
  now rewrite (@lookup_delete_ne _ _ _ d H).
Qed.

Lemma has_delete (k : pystr) (d : dict) (x : string) :
  pystr_eqb k (lit x) = false ->
  has x (VDict (delete k d)) = has x (VDict d).
Proof.
  intros H. rewrite !has_dict. unfold has_key.
  now rewrite (@lookup_delete_ne _ _ _ d H).
Qed.

Lemma item_delete_same (d : dict) (x : string) :
  item (VDict (delete (lit x) d)) x = raise (KeyError (VStr (lit x))).
Proof. apply item_missing, lookup_delete_eq. Qed.

Lemma dict_set_delete (A : Type) (k k1 : pystr) (v : A) (d : list (pystr * A)) :
  pystr_eqb k k1 = false ->
  dict_set k1 v (delete k d) = delete k (dict_set k1 v d).
Proof.
  intros Hne. unfold delete.
  induction d as [|[k0 v0] d IH]; cbn [dict_set filter fst].
  - now rewrite Hne.
  - destruct (pystr_eqb k k0) eqn:E; cbn [negb].
    + apply pystr_eqb_eq in E. subst k0.
      assert (E1 : pystr_eqb k1 k = false).
      { apply pystr_eqb_neq. intros ->. now rewrite pystr_eqb_refl in Hne. }
      rewrite E1. cbn [filter fst]. rewrite pystr_eqb_refl. exact IH.
    + cbn [dict_set]. destruct (pystr_eqb k1 k0) eqn:E1; cbn [filter fst];
        rewrite E; cbn [negb]; [reflexivity|]. now rewrite IH.
Qed.

Lemma replace_char_absent (c : N) (new s : pystr) :
  is_substring [c] s = false -> replace_char c new s = s.
Proof.
  unfold replace_char.
  induction s as [|x s IH]; cbn [is_substring is_prefix flat_map]; [reflexivity|].
  intros H. apply orb_false_elim in H. destruct H as [Hx Hs].
  rewrite andb_true_r in Hx. rewrite N.eqb_sym in Hx. rewrite Hx.
  now rewrite (IH Hs).
Qed.

Lemma py_eq_str (a b : pystr) : py_eq (VStr a) (VStr b) = pystr_eqb a b.
Proof. reflexivity. Qed.

Lemma map_m_need_str (l : list pystr) : map_m need_str (map VStr l) = ret l.
Proof.
  induction l as [|s l IH]; simpl; [reflexivity|].
  rewrite bind_ret, IH, bind_ret. reflexivity.
Qed.

Lemma join_values_strs (sep : string) (l : list pystr) :
  join_values sep (map VStr l) = ret (join (lit sep) l).
Proof. unfold join_values. now rewrite map_m_need_str, bind_ret. Qed.



Section Properties.

Variable isprintable : N -> bool.
Variable TypeError_text : pystr.

(** ** Senses *)





(** ** Hit points *)



(** ** Spell levels *)


(** ** Spells and spell-like abilities *)



Lemma to_desc_str (s : pystr) (f : stream) :
  to_desc isprintable (VStr s) f = tell [Emit f (desc_text s)].
Proof. reflexivity. Qed.

(** *** Filing under keys *)














(** *** The block of the spells *)











(** *** The block of the spell-like abilities *)








(** *** The claims on the spells *)



(** ** Text escaping *)

Lemma hexdigit_printable (n : N) :
  (n < 16)%N -> printable_ascii (hexdigit n) = true.
Proof.
  intros Hn. unfold printable_ascii, hexdigit.
  destruct (N.ltb_spec n 10); apply andb_true_intro; split;
    first [apply N.leb_le | apply N.ltb_lt]; lia.
Qed.

Lemma hex_digits_printable (width : nat) (ch : N) :
  forallb printable_ascii (hex_digits width ch) = true.
Proof.
  unfold hex_digits. apply forallb_forall. intros x Hx.
  apply in_map_iff in Hx. destruct Hx as (i & <- & _).
  apply hexdigit_printable.
  change 15%N with (N.ones 4). rewrite N.land_ones.
  apply N.mod_lt. discriminate.
Qed.

(** The escape of a character that is not printable ASCII: a backslash,
    then printable ASCII characters. *)
Lemma unicode_escape_char_other (ch : N) :
  printable_ascii ch = false ->
  exists rest,
    unicode_escape_char ch = ch_backslash :: rest
    /\ rest <> [] /\ forallb printable_ascii rest = true.
Proof.
  intros Hp. unfold unicode_escape_char. rewrite Hp.
  assert (Hhex : forall (pre : pystr) (width : nat),
             forallb printable_ascii pre = true ->
             forallb printable_ascii (pre ++ hex_digits width ch) = true).
  { intros pre width Hpre. rewrite forallb_app, Hpre. apply hex_digits_printable. }
  destruct (ch <? 256)%N.
  - destruct (ch =? ch_tab)%N;
      [exists [116%N]; split; [reflexivity|split; [discriminate|reflexivity]]|].
    destruct (ch =? ch_nl)%N;
      [exists [110%N]; split; [reflexivity|split; [discriminate|reflexivity]]|].
    destruct (ch =? ch_cr)%N;
      [exists [114%N]; split; [reflexivity|split; [discriminate|reflexivity]]|].
    exists ([120%N] ++ hex_digits 2 ch).
    split; [reflexivity|split; [discriminate|now apply Hhex]].
  - destruct (ch <? 65536)%N.
    + exists ([117%N] ++ hex_digits 4 ch).
      split; [reflexivity|split; [discriminate|now apply Hhex]].
    + exists ([85%N; 48%N; 48%N] ++ hex_digits 6 ch).
      split; [reflexivity|split; [discriminate|now apply Hhex]].
Qed.

Lemma unicode_escape_plain (s : pystr) :
  forallb (fun ch => printable_ascii ch && negb (ch =? ch_backslash)%N) s = true ->
  unicode_escape s = s.
Proof.
  unfold unicode_escape.
  induction s as [|ch s IH]; cbn [forallb flat_map]; [reflexivity|].
  intros H. apply andb_prop in H. destruct H as [Hch Hs].
  apply andb_prop in Hch. destruct Hch as [Hp Hb].
  rewrite (IH Hs). unfold unicode_escape_char. rewrite Hp.
  apply negb_true_iff in Hb. rewrite Hb.
  assert (Hlt : (ch <? 256)%N = true).
  { unfold printable_ascii in Hp. apply andb_prop in Hp. destruct Hp as [_ Hp].
    apply N.ltb_lt in Hp. apply N.ltb_lt. lia. }
  now rewrite Hlt.
Qed.

(** C8, as amended.  The line that [to_desc] prints is the value's string
    form between double quotes, after the indented [desc:] label, with
    every character replaced by its escape: a printable ASCII character
    other than the backslash stays as it is, the backslash is doubled, and
    any other character becomes a backslash followed by printable ASCII
    characters.  A text of printable ASCII characters without a backslash
    is printed unaltered. *)
Theorem to_desc_escapes :
  (forall (txt : value) (file : stream),
      to_desc isprintable txt file
      = tell [Emit file (lit "    desc: " ++ dq
                          ++ flat_map unicode_escape_char (py_str isprintable txt)
                          ++ dq)])
  /\ (forall ch : N,
         printable_ascii ch = true -> ch <> ch_backslash ->
         unicode_escape_char ch = [ch])
  /\ unicode_escape_char ch_backslash = [ch_backslash; ch_backslash]
  /\ (forall ch : N,
         printable_ascii ch = false ->
         exists rest,
           unicode_escape_char ch = ch_backslash :: rest
           /\ rest <> [] /\ forallb printable_ascii rest = true)
  /\ (forall s : pystr,
         forallb (fun ch => printable_ascii ch && negb (ch =? ch_backslash)%N) s
         = true ->
         unicode_escape s = s).
Proof.
  split; [reflexivity|].
  split.
  { intros ch Hp Hb. unfold unicode_escape_char. rewrite Hp.
    apply N.eqb_neq in Hb. rewrite Hb.
    assert (Hlt : (ch <? 256)%N = true).
    { unfold printable_ascii in Hp. apply andb_prop in Hp. destruct Hp as [_ Hp].
      apply N.ltb_lt in Hp. apply N.ltb_lt. lia. }
    now rewrite Hlt. }
  split; [reflexivity|].
  split; [exact unicode_escape_char_other | exact unicode_escape_plain].
Qed.

(** ** An existing output file *)

(** C5.  When the destination file exists, [write_monster] prints nothing
    to it and formats nothing: the world is as before, but for one line on
    standard output that names the file and the record's key.  In the
    driver, such a record leaves every file as it was, adds that one line
    to standard output, and the loop goes on with the records that
    follow. *)
Theorem existing_file_is_kept :
  (forall (monster_in : dict) (filename : pystr) (source_dict keys_used : bool)
          (url : pystr) (w : world) (content : list pystr),
      lookup filename (w_files w) = Some content ->
      write_monster isprintable TypeError_text monster_in (Some filename)
                    source_dict keys_used (Some url) w
      = (to_stdout (lit "ERROR: file " ++ filename
                    ++ lit " already exists while processing key " ++ url) w,
         Ok tt))
  /\ (forall (outpath key title part : pystr) (monster_in : dict) (w : world)
             (content : list pystr) (rest : list (pystr * dict)),
         nth_error (split_char ch_slash key) 3 = Some part ->
         lookup (lit "title2") monster_in = Some (VStr title) ->
         lookup (file_name outpath key title) (w_files w) = Some content ->
         exists w',
           process_record isprintable TypeError_text outpath key monster_in w
           = Continue w'
           /\ w_files w' = w_files w
           /\ w_stdout w'
              = w_stdout w
                ++ [lit "ERROR: file " ++ file_name outpath key title
                    ++ lit " already exists while processing key " ++ key]
           /\ main_loop isprintable TypeError_text outpath
                        ((key, monster_in) :: rest) w
              = main_loop isprintable TypeError_text outpath rest w').
Proof.
  split.
  - intros monster_in filename source_dict keys_used url w content Hfile.
    unfold write_monster. rewrite (has_key_found _ _ Hfile). reflexivity.
  - intros outpath key title part monster_in w content rest Hkey Htitle Hfile.
    eexists. cbn [main_loop].
    unfold process_record, try_body. rewrite Hkey, Htitle.
    unfold write_monster. cbn [w_files].
    rewrite (has_key_found _ _ Hfile).
    repeat split.
Qed.

(** ** The source line *)

(** What lines 100-103 do to a source name: the prefix is added when the
    name WITHOUT its first eight characters is [Bestiary], and then every
    [#] becomes [No. ]. *)
Lemma source_text_spec (source : pystr) :
  source_text source
  = replace_char ch_hash (lit "No. ")
      (if pystr_eqb (skipn 8 source) (lit "Bestiary")
       then lit "Pathfinder RPG " ++ source else source).
Proof.
  unfold source_text.
  destruct (is_substring (lit "#") _) eqn:E; [reflexivity|].
  symmetry. now apply replace_char_absent.
Qed.

(** C1 (the code departs from it).  The source name [Bestiary] is printed
    as it is, without [Pathfinder RPG ] before it: line 100 compares
    [source[8:]], the name after its first eight characters, with
    [Bestiary], where the first eight characters were meant.  So a name
    that begins with [Bestiary] does not get the prefix, and a name that
    has [Bestiary] after eight other characters does.  The other half of
    the claim holds: every [#] of the name is printed as [No. ]. *)
Theorem source_bestiary_not_prefixed :
  source_text (lit "Bestiary") = lit "Bestiary"
  /\ source_text (lit "Bestiary 2") = lit "Bestiary 2"
  /\ source_text (lit "Monster Bestiary") = lit "Pathfinder RPG Monster Bestiary"
  /\ step_source (VDict goblin) OutFile true
     = ([SourceSeen (str "Bestiary");
         Emit OutFile (lit "source:  " ++ dq ++ lit "Bestiary" ++ dq)],
        Ok tt)
  /\ source_text (lit "Pathfinder #12") = lit "Pathfinder No. 12"
  /\ forall source : pystr,
       source_text source
       = replace_char ch_hash (lit "No. ")
           (if pystr_eqb (skipn 8 source) (lit "Bestiary")
            then lit "Pathfinder RPG " ++ source else source).
Proof.
  repeat split; try reflexivity. apply source_text_spec.
Qed.

(** ** Fields that are subscripted without a test *)

(** C2 (the code departs from it).  A record with every field of the
    required set is not formatted when it lacks [sources] or [skills]:
    line 98 subscripts [monster_in['sources']] and line 145 subscripts
    [monster_in['skills']] without the test that lines 474 and 315 make,
    and the formatter leaves with a [KeyError].  The record [goblin] is
    formatted; without either field it is not. *)
Theorem skills_and_sources_are_required :
  (forall (monster_in : dict) (f : stream) (source_dict keys_used : bool)
          (url : option pystr) (evs : list event),
      lookup (lit "sources") monster_in = None
      \/ lookup (lit "skills") monster_in = None ->
      write_monster_to_file isprintable TypeError_text monster_in f
                            source_dict keys_used url
      <> (evs, Ok tt))
  /\ snd (write_monster_to_file isprintable TypeError_text goblin
                                OutFile true true None) = Ok tt
  /\ snd (write_monster_to_file isprintable TypeError_text
                                (delete (lit "skills") goblin)
                                OutFile true true None)
     = Raise (KeyError (str "skills"))
  /\ snd (write_monster_to_file isprintable TypeError_text
                                (delete (lit "sources") goblin)
                                OutFile true true None)
     = Raise (KeyError (str "sources")).
Proof.
  split; [|repeat split; reflexivity].
  intros monster_in f source_dict keys_used url evs Hmissing Hrun.
  unfold write_monster_to_file in Hrun.
  apply bind_ok_inv in Hrun. destruct Hrun as (_ & name & evs2 & _ & Hrun & _).
  apply bind_ok_inv in Hrun. destruct Hrun as (_ & [] & evs3 & _ & Hrun & _).
  destruct Hmissing as [Hs|Hs].
  - destruct (in_order_ok_all _ Hrun
                (step_source (VDict monster_in) f source_dict))
      as [evs' Hstep].
    { unfold steps. do 1 right. left. reflexivity. }
    unfold step_source in Hstep. rewrite (item_missing _ _ Hs) in Hstep.
    discriminate Hstep.
  - destruct (in_order_ok_all _ Hrun (step_perception (VDict monster_in) f))
      as [evs' Hstep].
    { unfold steps. do 12 right. left. reflexivity. }
    unfold step_perception in Hstep. rewrite (item_missing _ _ Hs) in Hstep.
    discriminate Hstep.
Qed.

(** ** The speed line *)

(** C3 (the code departs from it).  The loop of lines 236-243 passes over
    the keys [base], [fly] and [fly_maneuverability], and not over
    [fly_other]: when the fly speed was printed with the [fly_other] text,
    the key is printed a second time, as a speed of its own.  The rest of
    the claim holds on these tables: the base speed comes first, then the
    fly speed, then the other keys, [base_other] as its value after a
    space. *)
Theorem fly_other_printed_twice :
  speed_items isprintable
    (VDict [field "fly" (VInt 60); field "fly_other" (str "hover")])
  = ret [lit "fly 60 ft. (hover)"; lit "fly_other hover ft."]
  /\ speed_items isprintable
       (VDict [field "base" (VInt 30); field "fly" (VInt 60);
               field "fly_maneuverability" (str "good");
               field "swim" (VInt 20); field "base_other" (str "jet 200 ft.")])
     = ret [lit "30 ft."; lit "fly 60 ft. (good)"; lit "swim 20 ft.";
            lit " jet 200 ft."]
  /\ step_speeds isprintable
       (VDict [field "speeds"
                 (VDict [field "fly" (VInt 60); field "fly_other" (str "hover")])])
       OutFile false
     = ([Emit OutFile (lit "speed: " ++ dq
                        ++ lit "fly 60 ft. (hover), fly_other hover ft." ++ dq)],
        Ok tt).
Proof. repeat split. Qed.

(** ** A record without a mandatory field *)

Lemma quiet_to_desc (txt : value) : quiet (to_desc isprintable txt OutFile).
Proof. reflexivity. Qed.

Lemma pure_senses_items (senses : value) : pure (senses_items isprintable senses).
Proof. unfold senses_items. pure_tac. Qed.

Lemma pure_ac_components (components : value) :
  pure (ac_components components).
Proof. unfold ac_components. pure_tac. Qed.

Lemma pure_hp_special (hp : value) : pure (hp_special isprintable hp).
Proof. unfold hp_special. pure_tac. Qed.

Lemma pure_speed_items (speeds : value) : pure (speed_items isprintable speeds).
Proof. unfold speed_items, speed_head, speed_entry. pure_tac. Qed.

Hint Resolve pure_senses_items pure_ac_components pure_hp_special
  pure_speed_items : pure.

Create HintDb steps.
Hint Unfold step_front_matter step_source step_CR step_name step_XP step_race
  step_classes step_alignment step_size step_type step_subtypes step_initiative
  step_perception step_senses step_auras step_AC step_HP step_HD step_saves
  step_immunities step_resistances step_DR step_defensive_abilities step_SR
  step_weaknesses step_speeds step_attacks step_space step_reach step_tactics
  step_ability_scores step_BAB step_CM print_field print_joined attack_line
  has_sub : steps.

(** A step prints to the file only. *)
Ltac quiet_tac :=
  repeat first
    [ apply quiet_print
    | apply quiet_used
    | apply quiet_to_desc
    | apply quiet_source_seen
    | apply quiet_pure; solve [pure_tac]
    | apply quiet_bind; [|intros]
    | apply quiet_for_each; intros
    | match goal with
      | |- quiet (when ?b _) => destruct b; cbn [when]
      | |- quiet (if ?b then _ else _) => destruct b
      | |- quiet (match ?x with _ => _ end) => destruct x
      end ].

(** Statements carried out one after the other up to one that raises. *)
Lemma in_order_app_raise (pre l : list (M unit)) (c : M unit)
  (evs : list event) (e : exn) :
  in_order pre = (evs, Ok tt) -> snd c = Raise e ->
  in_order (pre ++ c :: l) = (evs ++ fst c, Raise e).
Proof.
  unfold in_order. revert evs.
  induction pre as [|c0 pre IH]; intros evs Hpre Hc; cbn [app for_each] in *.
  - injection Hpre as <-. destruct c as [evs' r]. cbn [fst snd] in *.
    subst r. reflexivity.
  - apply bind_ok_inv in Hpre.
    destruct Hpre as (evs1 & [] & evs2 & Hc0 & Hrest & ->).
    rewrite Hc0, bind_ok, (IH _ Hrest Hc). cbn [fst snd].
    now rewrite app_assoc.
Qed.

Lemma quiet_in_order (l : list (M unit)) :
  (forall c, In c l -> quiet c) -> quiet (in_order l).
Proof.
  unfold in_order. induction l as [|c l IH]; intros H; cbn [for_each];
    [reflexivity|].
  apply quiet_bind; [apply H; now left|].
  intros _. apply IH. intros c' Hc'. apply H. now right.
Qed.

Lemma in_firstn_le (A : Type) (n m : nat) (l : list A) (x : A) :
  (n <= m)%nat -> In x (firstn n l) -> In x (firstn m l).
Proof.
  revert m l. induction n as [|n IH]; intros m l Hle Hin; [destruct Hin|].
  destruct m as [|m]; [lia|]. destruct l as [|y l]; [destruct Hin|].
  cbn [firstn In] in *. destruct Hin as [->|Hin]; [now left|].
  right. apply (IH m l); [lia | exact Hin].
Qed.

(** The statements up to the manoeuvre defence print to the file only. *)
Lemma quiet_first_statements (monster_in monster_name : value)
  (source_dict keys_used : bool) (url : option pystr) (c : M unit) :
  In c (firstn 34 (steps isprintable TypeError_text monster_in monster_name
                         OutFile source_dict keys_used url)) ->
  quiet c.
Proof.
  unfold steps. cbn [firstn In]. intros H.
  repeat (destruct H as [<-|H]; [solve [autounfold with steps; quiet_tac]|]).
  destruct H.
Qed.

Lemma quiet_statements_before (k : pystr) (monster_in monster_name : value)
  (source_dict keys_used : bool) (url : option pystr) :
  In k mandatory_fields ->
  quiet (in_order (statements_before k
                     (steps isprintable TypeError_text monster_in monster_name
                            OutFile source_dict keys_used url))).
Proof.
  intros Hk. apply quiet_in_order. intros c Hc.
  apply (@quiet_first_statements monster_in monster_name source_dict keys_used
           url).
  unfold mandatory_fields in Hk. cbn [map In] in Hk.
  repeat (destruct Hk as [<-|Hk];
          [refine (in_firstn_le _ _ _ Hc); cbv; repeat constructor|]).
  destruct Hk.
Qed.

(** The statement that uses a missing mandatory field first raises
    [KeyError] for it, after recording keys at most. *)
Lemma first_use_raises (k : pystr) (monster_in : dict) (monster_name : value)
  (f : stream) (source_dict keys_used : bool) (url : option pystr) :
  In k (tl mandatory_fields) ->
  lookup k monster_in = None ->
  exists (c : M unit) (after : list (M unit)),
    steps isprintable TypeError_text (VDict monster_in) monster_name f
          source_dict keys_used url
    = statements_before k
        (steps isprintable TypeError_text (VDict monster_in) monster_name f
               source_dict keys_used url)
      ++ c :: after
    /\ snd c = Raise (KeyError (VStr k))
    /\ stdout_texts (fst c) = [].
Proof.
  intros Hk Hnone. unfold mandatory_fields in Hk. cbn [map tl In] in Hk.
  repeat (destruct Hk as [<-|Hk];
          [eexists _, _; split; [reflexivity|];
           autounfold with steps; cbn [path map_m]; rewrite ?has_dict;
           repeat match goal with
                  | |- context [has_key ?a ?b] => destruct (has_key a b)
                  end;
           rewrite !(item_missing _ _ Hnone);
           destruct keys_used; split; reflexivity|]).
  destruct Hk.
Qed.

Lemma stdout_apply_events (name : pystr) (evs : list event) (w : world) :
  w_stdout (apply_events (Some name) evs w) = w_stdout w ++ stdout_texts evs.
Proof.
  unfold apply_events. revert w.
  induction evs as [|e evs IH]; intros w; cbn [fold_left].
  - now rewrite app_nil_r.
  - rewrite IH. unfold stdout_texts. cbn [flat_map].
    destruct e as [[|] text|k|k]; cbn [apply_event].
    + cbn [to_stdout w_stdout]. now rewrite <- app_assoc.
    + destruct (lookup name (w_files w)); reflexivity.
    + reflexivity.
    + reflexivity.
Qed.

(** The line that the driver prints for a missing mandatory field. *)
Lemma error_message_mandatory (k key : pystr) :
  In k mandatory_fields ->
  error_message isprintable TypeError_text (KeyError (VStr k)) key
  = lit "ERROR:  '" ++ k ++ lit "' with " ++ key.
Proof.
  unfold mandatory_fields. cbn [map In]. intros Hk.
  repeat (destruct Hk as [<-|Hk]; [reflexivity|]). destruct Hk.
Qed.

Lemma mandatory_not_title (k : pystr) :
  In k (tl mandatory_fields) -> pystr_eqb k (lit "title2") = false.
Proof.
  unfold mandatory_fields. cbn [map tl In]. intros Hk.
  repeat (destruct Hk as [<-|Hk]; [reflexivity|]). destruct Hk.
Qed.

Lemma lookup_retitled (key title k : pystr) (monster_in : dict) :
  pystr_eqb k (lit "title2") = false ->
  lookup k (retitled key title monster_in) = lookup k monster_in.
Proof.
  intros Hne. unfold retitled.
  destruct (is_substring (lit "NPCDisplay") key); [|reflexivity].
  apply lookup_dict_set_ne. intros Heq. subst k.
  now rewrite pystr_eqb_refl in Hne.
Qed.

(** The formatter on a record without a mandatory field never comes to
    its end; if the record has a title and the statements before the first
    use of the field end well, it raises [KeyError] for the field, with
    nothing on standard output. *)
Lemma formatter_missing_field (k : pystr) (monster_in : dict)
  (url : option pystr) :
  In k (tl mandatory_fields) ->
  lookup k monster_in = None ->
  (forall (f : stream) (source_dict keys_used : bool),
      snd (write_monster_to_file isprintable TypeError_text monster_in f
             source_dict keys_used url) <> Ok tt)
  /\ (sound_before isprintable TypeError_text k monster_in url ->
      exists evs,
        write_monster_to_file isprintable TypeError_text monster_in OutFile
                              true true url
        = (evs, Raise (KeyError (VStr k)))
        /\ stdout_texts evs = []).
Proof.
  intros Hk Hnone. unfold write_monster_to_file. split.
  - intros f source_dict keys_used.
    destruct (lookup (lit "title2") monster_in) as [name|] eqn:Hname;
      [|rewrite (item_missing _ _ Hname); discriminate].
    rewrite (item_found _ _ Hname). mstep.
    destruct (@first_use_raises k monster_in name f source_dict keys_used url
                Hk Hnone) as (c & after & Hsplit & Hc & _).
    destruct (in_order (steps isprintable TypeError_text (VDict monster_in)
                          name f source_dict keys_used url))
      as [evs [[]|e]] eqn:Hrun.
    + exfalso.
      destruct (in_order_ok_all _ Hrun c) as (evs' & Hok).
      * rewrite Hsplit. apply in_or_app. right. now left.
      * rewrite Hok in Hc. discriminate Hc.
    + destruct keys_used; discriminate.
  - intros (name & Hname & Hbefore). rewrite (item_found _ _ Hname). mstep.
    destruct (@first_use_raises k monster_in name OutFile true true url
                Hk Hnone) as (c & after & Hsplit & Hc & Hquiet).
    pose proof (@quiet_statements_before k (VDict monster_in) name true true
                  url (in_cons _ _ _ Hk)) as Hq.
    destruct (in_order
                (statements_before k
                   (steps isprintable TypeError_text (VDict monster_in) name
                          OutFile true true url)))
      as [evs1 r] eqn:Hpre.
    cbn [snd] in Hbefore. subst r. unfold quiet in Hq. cbn [fst] in Hq.
    assert (Hrun : in_order (steps isprintable TypeError_text (VDict monster_in)
                               name OutFile true true url)
                   = (evs1 ++ fst c, Raise (KeyError (VStr k)))).
    { rewrite Hsplit. exact (@in_order_app_raise _ after c evs1 _ Hpre Hc). }
    rewrite Hrun.
    eexists. split; [reflexivity|].
    cbn [used when tell fst]. rewrite !stdout_texts_app, Hq, Hquiet.
    reflexivity.
Qed.

(** C6, as amended.  Take a record without one of the mandatory fields.
    Whatever else it holds, the formatter never formats it to the end.
    In the driver, under a key with at least three slashes: without a
    title, the driver prints one line on standard output, with [title2]
    between single quotes and the record's key, and goes on with the
    records that follow.  With a title, a destination file that is not
    there yet, and nothing that goes wrong before the first use of the
    field, the formatting ends with a [KeyError] for the field; the driver
    prints one line, with the field's name between single quotes and the
    record's key, and goes on.  With a title and a destination file that
    is there already, the record is not formatted: the files stay as they
    are, the driver prints the line about the existing file, and goes
    on. *)
Theorem missing_mandatory_field_is_logged (outpath key part k : pystr)
  (monster_in : dict) (w : world) (rest : list (pystr * dict)) :
  In k mandatory_fields ->
  lookup k monster_in = None ->
  nth_error (split_char ch_slash key) 3 = Some part ->
  (forall (f : stream) (source_dict keys_used : bool) (url : option pystr),
      snd (write_monster_to_file isprintable TypeError_text monster_in f
             source_dict keys_used url) <> Ok tt)
  /\ (lookup (lit "title2") monster_in = None ->
      exists w',
        process_record isprintable TypeError_text outpath key monster_in w
        = Continue w'
        /\ w_stdout w'
           = w_stdout w ++ [lit "ERROR:  'title2' with " ++ key]
        /\ main_loop isprintable TypeError_text outpath
                     ((key, monster_in) :: rest) w
           = main_loop isprintable TypeError_text outpath rest w')
  /\ (forall title : pystr,
         lookup (lit "title2") monster_in = Some (VStr title) ->
         lookup (file_name outpath key title) (w_files w) = None ->
         sound_before isprintable TypeError_text k
                      (retitled key title monster_in) (Some key) ->
         (exists evs,
             write_monster_to_file isprintable TypeError_text
               (retitled key title monster_in) OutFile true true (Some key)
             = (evs, Raise (KeyError (VStr k))))
         /\ exists w',
              process_record isprintable TypeError_text outpath key
                             monster_in w
              = Continue w'
              /\ w_stdout w'
                 = w_stdout w ++ [lit "ERROR:  '" ++ k ++ lit "' with " ++ key]
              /\ main_loop isprintable TypeError_text outpath
                           ((key, monster_in) :: rest) w
                 = main_loop isprintable TypeError_text outpath rest w')
  /\ (forall (title : pystr) (content : list pystr),
         lookup (lit "title2") monster_in = Some (VStr title) ->
         lookup (file_name outpath key title) (w_files w) = Some content ->
         exists w',
           process_record isprintable TypeError_text outpath key monster_in w
           = Continue w'
           /\ w_files w' = w_files w
           /\ w_stdout w'
              = w_stdout w
                ++ [lit "ERROR: file " ++ file_name outpath key title
                    ++ lit " already exists while processing key " ++ key]
           /\ main_loop isprintable TypeError_text outpath
                        ((key, monster_in) :: rest) w
              = main_loop isprintable TypeError_text outpath rest w').
Proof.
  intros Hk Hnone Hkey.
  assert (Hcases : k = lit "title2" \/ In k (tl mandatory_fields)).
  { unfold mandatory_fields in *. cbn [map tl In] in *.
    destruct Hk as [<-|Hk]; [now left | now right]. }
  split; [|split; [|split]].
  - intros f source_dict keys_used url.
    destruct Hcases as [->|Hin].
    + unfold write_monster_to_file. rewrite (item_missing _ _ Hnone).
      discriminate.
    + exact (proj1 (@formatter_missing_field k monster_in url Hin Hnone)
                   f source_dict keys_used).
  - intros Htitle. cbn [main_loop]. unfold process_record, try_body.
    rewrite Hkey, Htitle. eexists. split; [reflexivity|]. split; reflexivity.
  - intros title Htitle Hfile Hsound.
    destruct Hcases as [->|Hin]; [congruence|].
    assert (Hnone' : lookup k (retitled key title monster_in) = None).
    { rewrite (@lookup_retitled key title k monster_in
                 (mandatory_not_title Hin)).
      exact Hnone. }
    destruct (proj2 (@formatter_missing_field k (retitled key title monster_in)
                       (Some key) Hin Hnone') Hsound)
      as (evs & Hrun & Hq).
    split; [now exists evs|].
    cbn [main_loop]. unfold process_record, try_body. rewrite Hkey, Htitle.
    unfold write_monster. cbn [w_files].
    rewrite (has_key_missing _ _ Hfile), Hrun.
    eexists. split; [reflexivity|]. split; [|reflexivity].
    cbn [to_stdout w_stdout]. rewrite stdout_apply_events, Hq, app_nil_r.
    cbn [set_files w_stdout].
    now rewrite (error_message_mandatory key Hk).
  - intros title content Htitle Hfile.
    eexists. cbn [main_loop].
    unfold process_record, try_body. rewrite Hkey, Htitle.
    unfold write_monster. cbn [w_files].
    rewrite (has_key_found _ _ Hfile).
    repeat split.
Qed.

End Properties.

(** ** The theorems on records of the corpus *)





Lemma to_desc_escapes_example :
  unicode_escape_char 97 = [97%N]
  /\ (exists rest, unicode_escape_char 8212 = ch_backslash :: rest
                   /\ rest <> [] /\ forallb printable_ascii rest = true)
  /\ unicode_escape (lit "Goblin dog (CR 1)") = lit "Goblin dog (CR 1)".
Proof.
  destruct (to_desc_escapes no_unicode) as (_ & Hplain & _ & Hother & Htext).
  split; [|split].
  - exact (Hplain 97%N eq_refl ltac:(discriminate)).
  - exact (Hother 8212%N eq_refl).
  - exact (Htext (lit "Goblin dog (CR 1)") eq_refl).
Defined.

Lemma existing_file_example :
  exists w',
    process_record no_unicode some_text bestiary goblin_key goblin taken_world
    = Continue w'
    /\ w_files w' = [(lit "bestiary/Goblin.md", [lit "kept"])]
    /\ w_stdout w'
       = [lit "ERROR: file bestiary/Goblin.md already exists while processing key https://aonprd.com/MonsterDisplay.aspx?ItemName=Goblin"]
    /\ main_loop no_unicode some_text bestiary [(goblin_key, goblin)] taken_world
       = Continue w'.
Proof.
  destruct (proj2 (existing_file_is_kept no_unicode some_text)
              bestiary goblin_key (lit "Goblin")
              (lit "MonsterDisplay.aspx?ItemName=Goblin") goblin taken_world
              [lit "kept"] [] eq_refl eq_refl eq_refl)
    as (w' & Hrun & Hfiles & Hout & Hloop).
  exists w'. repeat split; assumption.
Defined.

Lemma skills_required_example :
  write_monster_to_file no_unicode some_text (delete (lit "skills") goblin)
                        OutFile true true None
  <> ([], Ok tt).
Proof.
  exact (proj1 (skills_and_sources_are_required no_unicode some_text)
               (delete (lit "skills") goblin) OutFile true true None []
               (or_intror eq_refl)).
Defined.

Lemma missing_fields_example :
  (exists w',
      process_record no_unicode some_text bestiary goblin_key
                     (delete (lit "BAB") (delete (lit "CR") goblin)) empty_world
      = Continue w'
      /\ w_stdout w'
         = [lit "ERROR:  'CR' with https://aonprd.com/MonsterDisplay.aspx?ItemName=Goblin"])
  /\ Forall
       (fun k =>
          exists w',
            process_record no_unicode some_text bestiary goblin_key
                           (delete k goblin) empty_world
            = Continue w'
            /\ w_stdout w' = [lit "ERROR:  '" ++ k ++ lit "' with " ++ goblin_key])
       mandatory_fields.
Proof.
  split.
  - destruct (@missing_mandatory_field_is_logged no_unicode some_text
                bestiary goblin_key (lit "MonsterDisplay.aspx?ItemName=Goblin")
                (lit "CR") (delete (lit "BAB") (delete (lit "CR") goblin))
                empty_world [] (or_intror (or_introl eq_refl)) eq_refl eq_refl)
      as (_ & _ & Hother & _).
    destruct (Hother (lit "Goblin") eq_refl eq_refl
                (ex_intro _ (str "Goblin") (conj eq_refl eq_refl)))
      as (_ & w' & Hrun & Hout & _).
    exists w'. split; assumption.
  - unfold mandatory_fields. cbn [map]. apply Forall_cons.
    + destruct (@missing_mandatory_field_is_logged no_unicode some_text
                  bestiary goblin_key
                  (lit "MonsterDisplay.aspx?ItemName=Goblin")
                  (lit "title2") (delete (lit "title2") goblin)
                  empty_world [] (or_introl eq_refl) eq_refl eq_refl)
        as (_ & Htitle & _).
      destruct (Htitle eq_refl) as (w' & Hrun & Hout & _).
      exists w'. split; assumption.
    + repeat (apply Forall_cons;
              [match goal with
               | |- exists w', process_record _ _ _ _ (delete ?k goblin) _ = _
                               /\ _ =>
                   destruct (@missing_mandatory_field_is_logged
                               no_unicode some_text bestiary goblin_key
                               (lit "MonsterDisplay.aspx?ItemName=Goblin")
                               k (delete k goblin) empty_world []
                               ltac:(unfold mandatory_fields; cbn [map In];
                                     repeat (first [left; reflexivity | right]))
                               eq_refl eq_refl)
                     as (_ & _ & Hother & _);
                   destruct (Hother (lit "Goblin") eq_refl eq_refl
                               (ex_intro _ (str "Goblin") (conj eq_refl eq_refl)))
                     as (_ & w' & Hrun & Hout & _);
                   exists w'; split; assumption
               end|]).
      apply Forall_nil.
Defined.

(** ** Where the specification's words fail *)

(** C8 as the specification has it fails on the backslash, a printable
    ASCII character: [to_desc] prints it twice. *)
Lemma to_desc_backslash_doubled :
  printable_ascii ch_backslash = true
  /\ to_desc no_unicode (VStr [ch_backslash]) OutFile
     = tell [Emit OutFile (lit "    desc: " ++ dq
                           ++ [ch_backslash; ch_backslash] ++ dq)]
  /\ to_desc no_unicode (VStr [ch_backslash]) OutFile
     <> tell [Emit OutFile (lit "    desc: " ++ dq ++ [ch_backslash] ++ dq)].
Proof. repeat split. discriminate. Qed.

(** C6 as the specification has it fails on records without [CR].  When
    the goblin's file is there already, the record is not formatted at
    all: there is no lookup failure, and the line that the driver prints is
    the one about the file, which does not name the field.  When the list
    of sources is empty, line 98 raises [IndexError], which the driver does
    not catch: the run ends there, and the record after it is never
    reached.  The run ends in the same way under a key with fewer than
    three slashes, and, with [AttributeError], when the title is not a
    string. *)
Lemma missing_field_not_always_logged :
  lookup (lit "CR") (delete (lit "CR") goblin) = None
  /\ (exists w',
         process_record no_unicode some_text bestiary goblin_key
                        (delete (lit "CR") goblin) taken_world
         = Continue w'
         /\ w_stdout w'
            = [lit "ERROR: file bestiary/Goblin.md already exists while processing key https://aonprd.com/MonsterDisplay.aspx?ItemName=Goblin"])
  /\ (exists w',
         main_loop no_unicode some_text bestiary
           [(goblin_key,
             dict_set (lit "sources") (VList []) (delete (lit "CR") goblin));
            (lit "https://aonprd.com/MonsterDisplay.aspx?ItemName=Cleric", cleric)]
           empty_world
         = Terminated IndexError w'
         /\ w_stdout w' = [])
  /\ (exists w',
         main_loop no_unicode some_text bestiary
           [(lit "aonprd.com/Goblin", delete (lit "CR") goblin);
            (lit "https://aonprd.com/MonsterDisplay.aspx?ItemName=Cleric", cleric)]
           empty_world
         = Terminated IndexError w'
         /\ w_stdout w' = [])
  /\ (exists w',
         main_loop no_unicode some_text bestiary
           [(goblin_key,
             dict_set (lit "title2") (VInt 7) (delete (lit "CR") goblin));
            (lit "https://aonprd.com/MonsterDisplay.aspx?ItemName=Cleric", cleric)]
           empty_world
         = Terminated AttributeError w'
         /\ w_stdout w' = []).
Proof.
  split; [reflexivity|].
  split; [eexists; split; reflexivity|].
  split; [eexists; split; reflexivity|].
  split; eexists; split; reflexivity.
Qed.

(** * Further properties *)

(** The events of statements that all end well, one after the other. *)
Lemma in_order_events (l : list (M unit)) (evs : list event) :
  in_order l = (evs, Ok tt) -> evs = List.concat (map fst l).
Proof.
  unfold in_order. revert evs.
  induction l as [|c l IH]; intros evs H; cbn [for_each map List.concat] in *.
  - now injection H as <-.
  - apply bind_ok_inv in H. destruct H as (evs1 & [] & evs2 & Hc & Hl & ->).
    rewrite Hc. cbn [fst]. now rewrite (IH _ Hl).
Qed.

Lemma printed_app (a b : list event) : printed (a ++ b) = printed a ++ printed b.
Proof. apply flat_map_app. Qed.

Lemma printed_used (keys_used : bool) (k : string) :
  printed (fst (used keys_used k)) = [].
Proof. now destruct keys_used. Qed.

Lemma map_m_format_ints (zs : list Z) :
  map_m format_plus (map VInt zs) = ret (map signed_of_Z zs).
Proof.
  induction zs as [|z zs IH]; cbn [map map_m]; [reflexivity|].
  cbn [format_plus]. mstep. rewrite IH. mstep. reflexivity.
Qed.

(** ['{0:+}'.format] puts a sign before every integer. *)
Lemma signed_of_Z_sign (z : Z) :
  exists digits,
    signed_of_Z z = (if (z <? 0)%Z then 45%N else 43%N) :: digits.
Proof.
  unfold signed_of_Z. destruct z as [|p|p]; cbn [Z.ltb Z.compare].
  - eexists. reflexivity.
  - eexists. reflexivity.
  - unfold str_of_Z. cbn [Z.to_int NilZero.string_of_int lit list_ascii_of_string map].
    eexists. reflexivity.
Qed.

Lemma lookup_nodup (A : Type) (d : list (pystr * A)) (k : pystr) (v : A) :
  NoDup (keys d) -> In (k, v) d -> lookup k d = Some v.
Proof.
  unfold keys. induction d as [|[k0 v0] d IH]; cbn [map fst lookup In];
    intros Hnd Hin; [destruct Hin|].
  inversion Hnd as [|? ? Hnotin Hnd']; subst.
  destruct Hin as [[= -> ->]|Hin].
  - now rewrite pystr_eqb_refl.
  - destruct (pystr_eqb k k0) eqn:E; [|auto].
    apply pystr_eqb_eq in E. subst k0. exfalso. apply Hnotin.
    apply in_map_iff. now exists (k, v).
Qed.

Lemma py_join_strs (sep : string) (l : list pystr) :
  py_join sep (VList (map VStr l)) = ret (join (lit sep) l).
Proof. unfold py_join. cbn [iter]. mstep. apply join_values_strs. Qed.

Lemma keys_map_snd (A B : Type) (g : A -> B) (l : list (pystr * A)) :
  keys (map (fun kc => (fst kc, g (snd kc))) l) = map fst l.
Proof.
  unfold keys. induction l as [|[k a] l IH]; cbn [map fst]; [reflexivity|].
  now rewrite IH.
Qed.

Lemma unicode_escape_char_printable (ch : N) :
  forallb printable_ascii (unicode_escape_char ch) = true.
Proof.
  destruct (printable_ascii ch) eqn:Hp.
  - unfold unicode_escape_char. rewrite Hp.
    assert (Hlt : (ch <? 256)%N = true).
    { unfold printable_ascii in Hp. apply andb_prop in Hp. destruct Hp as [_ Hp].
      apply N.ltb_lt in Hp. apply N.ltb_lt. lia. }
    rewrite Hlt. destruct (ch =? ch_backslash)%N; cbn [forallb].
    + reflexivity.
    + now rewrite Hp.
  - destruct (unicode_escape_char_other ch Hp) as (rest & -> & _ & Hrest).
    cbn [forallb]. now rewrite Hrest.
Qed.

Lemma unicode_escape_printable (s : pystr) :
  forallb printable_ascii (unicode_escape s) = true.
Proof.
  unfold unicode_escape. induction s as [|ch s IH]; cbn [flat_map];
    [reflexivity|].
  now rewrite forallb_app, unicode_escape_char_printable, IH.
Qed.

Lemma replace_char_removes (c : N) (new s : pystr) :
  ~ In c new -> ~ In c (replace_char c new s).
Proof.
  intros Hnew. unfold replace_char.
  induction s as [|x s IH]; cbn [flat_map]; [easy|].
  intros Hin. apply in_app_or in Hin. destruct Hin as [Hin|Hin]; [|auto].
  destruct (N.eqb_spec x c) as [->|Hne]; [auto|].
  destruct Hin as [->|[]]. congruence.
Qed.

Lemma file_texts_app (a b : list event) :
  file_texts (a ++ b) = file_texts a ++ file_texts b.
Proof. apply flat_map_app. Qed.

(** Events leave the other files alone. *)
Lemma files_apply_events_other (name other : pystr) (evs : list event) (w : world) :
  name <> other ->
  lookup other (w_files (apply_events (Some name) evs w))
  = lookup other (w_files w).
Proof.
  intros Hne. unfold apply_events. revert w.
  induction evs as [|e evs IH]; intros w; cbn [fold_left]; [reflexivity|].
  rewrite IH. destruct e as [[|] text|k|k]; cbn [apply_event]; try reflexivity.
  destruct (lookup name (w_files w)); cbn [set_files w_files];
    now apply lookup_dict_set_ne.
Qed.

(** Events add their lines to the open file. *)
Lemma files_apply_events_same (name : pystr) (evs : list event) (w : world)
  (lines : list pystr) :
  lookup name (w_files w) = Some lines ->
  lookup name (w_files (apply_events (Some name) evs w))
  = Some (lines ++ file_texts evs).
Proof.
  unfold apply_events. revert w lines.
  induction evs as [|e evs IH]; intros w lines Hw; cbn [fold_left].
  - now rewrite app_nil_r.
  - destruct e as [[|] text|k|k]; cbn [apply_event].
    + now apply IH.
    + rewrite Hw. unfold file_texts. cbn [flat_map]. fold (file_texts evs).
      rewrite (IH _ (lines ++ [text])).
      * now rewrite <- app_assoc.
      * cbn [set_files w_files]. apply lookup_dict_set_eq.
    + now apply IH.
    + now apply IH.
Qed.

Lemma length_split_char (c : N) (s : pystr) :
  List.length (split_char c s) = S (count_occ N.eq_dec s c).
Proof.
  induction s as [|x s IH]; cbn [split_char count_occ]; [reflexivity|].
  destruct (N.eqb_spec x c) as [->|Hne].
  - destruct (N.eq_dec c c); [|congruence]. cbn [List.length]. now rewrite IH.
  - destruct (N.eq_dec x c); [congruence|].
    destruct (split_char c s) as [|w ws]; [discriminate IH|].
    cbn [List.length] in *. exact IH.
Qed.

Lemma distinct_NoDup (l : list pystr) : distinct l = true -> NoDup l.
Proof.
  induction l as [|x l IH]; cbn [distinct]; intros H; [constructor|].
  apply andb_prop in H. destruct H as [Hx Hl].
  constructor; [|auto].
  intros Hin. apply negb_true_iff in Hx.
  assert (Hex : existsb (pystr_eqb x) l = true).
  { apply existsb_exists. exists x. split; [exact Hin|apply pystr_eqb_refl]. }
  congruence.
Qed.

Create HintDb optional.
Create HintDb before_saves.

Section MoreProperties.

Variable isprintable : N -> bool.
Variable TypeError_text : pystr.

(** X1.  A document that the formatter finishes is framed: its first
    seven lines are the front matter with the title, the opening of the
    statblock and the layout, and its last five lines are the encounter
    table with the title. *)
Theorem document_frame (monster_in : dict) (f : stream)
  (source_dict keys_used : bool) (url : option pystr) (evs : list event) :
  write_monster_to_file isprintable TypeError_text monster_in f
                        source_dict keys_used url = (evs, Ok tt) ->
  exists (title : value) (middle : list pystr),
    lookup (lit "title2") monster_in = Some title
    /\ printed evs
       = [lit "---"; lit "statblock: inline"; lit "tags: monster";
          lit "name: " ++ py_str isprintable title; lit "---";
          lit "```statblock"; lit "layout: Basic Pathfinder 1e Layout"]
         ++ middle
         ++ [lit "```encounter-table";
             lit "name: " ++ py_str isprintable title;
             lit "creatures:";
             lit "  - 1: " ++ py_str isprintable title;
             lit "```"].
Proof.
  intros H. unfold write_monster_to_file in H.
  apply (pure_bind_ok_inv _ (pure_item (VDict monster_in) "title2")) in H.
  destruct H as (title & Htitle & H).
  apply bind_ok_inv in H. destruct H as (evs0 & [] & evs1 & Hused & H & ->).
  apply in_order_events in H. subst evs1.
  assert (Hlook : lookup (lit "title2") monster_in = Some title).
  { unfold item, getitem in Htitle. cbn [hashable] in Htitle.
    destruct (lookup (lit "title2") monster_in); [|discriminate].
    now injection Htitle as <-. }
  exists title. unfold steps. cbn [map List.concat].
  eexists. split; [exact Hlook|].
  rewrite printed_app.
  replace (printed evs0) with (@nil pystr)
    by (destruct keys_used; injection Hused as <-; reflexivity).
  cbn [app].
  repeat (rewrite printed_app).
  match goal with
  | |- printed (fst (step_front_matter _ _ _)) ++ ?rest = _ =>
      change (printed (fst (step_front_matter isprintable title f)))
        with [lit "---"; lit "statblock: inline"; lit "tags: monster";
              lit "name: " ++ py_str isprintable title; lit "---";
              lit "```statblock"; lit "layout: Basic Pathfinder 1e Layout"]
  end.
  f_equal.
  change (printed (fst (step_encounter_table isprintable title f)))
    with [lit "```encounter-table";
          lit "name: " ++ py_str isprintable title;
          lit "creatures:";
          lit "  - 1: " ++ py_str isprintable title;
          lit "```"].
  change (printed []) with (@nil pystr). rewrite app_nil_r.
  repeat rewrite app_assoc. reflexivity.
Qed.

Hint Unfold step_race step_classes step_subtypes step_senses step_auras
  step_immunities step_resistances step_DR step_defensive_abilities step_SR
  step_weaknesses step_attacks step_space step_reach step_tactics step_feats
  step_skills step_languages step_special_qualities step_gear step_ecology
  step_special_abilities step_spells step_psychic_magic
  step_spell_like_abilities step_sources step_desc_long print_joined
  attack_line has_sub : optional.

(** X2.  A step that tests for its field prints nothing and raises nothing
    when the record lacks the field: the line is left out. *)
Theorem absent_optional_field_prints_nothing (monster_in : dict) (f : stream)
  (keys_used : bool) (k : string) (step : value -> stream -> bool -> M unit) :
  In (k, step) (optional_steps isprintable TypeError_text) ->
  lookup (lit k) monster_in = None ->
  printed (fst (step (VDict monster_in) f keys_used)) = []
  /\ snd (step (VDict monster_in) f keys_used) = Ok tt.
Proof.
  unfold optional_steps. cbn [In]. intros Hin Habsent.
  repeat (destruct Hin as [[= <- <-]|Hin];
          [ autounfold with optional;
            rewrite ?has_dict, (has_key_missing _ _ Habsent); mstep;
            rewrite ?has_dict, ?(has_key_missing _ _ Habsent); mstep;
            rewrite ?has_dict, ?(has_key_missing _ _ Habsent); mstep;
            destruct keys_used; split; reflexivity |]).
  destruct Hin.
Qed.

(** X3.  The initiative line.  An integer bonus is printed with its sign.
    A list of integers is printed with the signed values joined by a
    slash; when the initiative table has the key [ability], a semicolon,
    two spaces and the ability follow.  Every printed value begins with a
    plus or a minus sign. *)
Theorem initiative_line (monster_in ini : dict) (f : stream) (keys_used : bool) :
  lookup (lit "initiative") monster_in = Some (VDict ini) ->
  (forall z : Z,
      lookup (lit "bonus") ini = Some (VInt z) ->
      step_initiative isprintable (VDict monster_in) f keys_used
      = ((if keys_used then [KeyUsed (lit "initiative")] else [])
         ++ [Emit f (lit "INI: " ++ signed_of_Z z)], Ok tt))
  /\ (forall (zs : list Z) (ability : value),
         lookup (lit "bonus") ini = Some (VList (map VInt zs)) ->
         lookup (lit "ability") ini = Some ability ->
         step_initiative isprintable (VDict monster_in) f keys_used
         = ((if keys_used then [KeyUsed (lit "initiative")] else [])
            ++ [Emit f (lit "INI: " ++ join (lit "/") (map signed_of_Z zs)
                        ++ lit ";  " ++ py_str isprintable ability)], Ok tt))
  /\ (forall zs : list Z,
         lookup (lit "bonus") ini = Some (VList (map VInt zs)) ->
         lookup (lit "ability") ini = None ->
         step_initiative isprintable (VDict monster_in) f keys_used
         = ((if keys_used then [KeyUsed (lit "initiative")] else [])
            ++ [Emit f (lit "INI: " ++ join (lit "/") (map signed_of_Z zs))],
            Ok tt))
  /\ (forall z : Z,
         exists digits,
           signed_of_Z z = (if (z <? 0)%Z then 45%N else 43%N) :: digits).
Proof.
  intros Hini. repeat split.
  - intros z Hb. unfold step_initiative. cbn [path].
    rewrite (item_found _ _ Hini). mstep. rewrite (item_found _ _ Hb). mstep.
    cbn [isinstance_int format_plus]. mstep.
    destruct keys_used; reflexivity.
  - intros zs ability Hb Ha. unfold step_initiative, signed_list. cbn [path].
    rewrite (item_found _ _ Hini). mstep. rewrite (item_found _ _ Hb). mstep.
    cbn [isinstance_int].
    rewrite has_dict, (has_key_found _ _ Ha). mstep.
    cbn [iter]. mstep. rewrite map_m_format_ints. mstep.
    rewrite (item_found _ _ Ha). mstep.
    unfold print, tell, used, when. cbn [join].
    rewrite <- !app_assoc.
    destruct keys_used; reflexivity.
  - intros zs Hb Ha. unfold step_initiative, signed_list. cbn [path].
    rewrite (item_found _ _ Hini). mstep. rewrite (item_found _ _ Hb). mstep.
    cbn [isinstance_int].
    rewrite has_dict, (has_key_missing _ _ Ha). mstep.
    cbn [iter]. mstep. rewrite map_m_format_ints. mstep.
    destruct keys_used; reflexivity.
  - apply signed_of_Z_sign.
Qed.

Lemma ac_components_fold (d : dict) (comps : list (pystr * component))
  (acc : list pystr * pystr) :
  (forall k c, In (k, c) comps -> lookup k d = Some (component_value c)) ->
  fold_m (map VStr (map fst comps))
    (fun (acc : list pystr * pystr) key =>
       v <- getitem (VDict d) key ;;
       if isinstance_int (Obj v) then
         k <- need_str key ;;
         s <- format_plus v ;;
         ret (fst acc ++ [k ++ lit " " ++ s], snd acc)
       else
         j <- py_join ", " v ;;
         ret (fst acc, snd acc ++ lit "; " ++ j))
    acc
  = ret (fst acc ++ bonus_texts comps, snd acc ++ remarks_text comps).
Proof.
  revert acc. induction comps as [|[k c] comps IH]; intros acc Hd;
    cbn [map fst fold_m bonus_texts remarks_text].
  - rewrite !app_nil_r. now destruct acc.
  - rewrite (getitem_found _ _ (Hd k c (or_introl eq_refl))). mstep.
    assert (Hd' : forall k c, In (k, c) comps ->
                              lookup k d = Some (component_value c))
      by (intros; apply Hd; now right).
    destruct c as [z|l]; cbn [component_value isinstance_int].
    + cbn [need_str format_plus]. mstep. rewrite (IH _ Hd'). cbn [fst snd].
      now rewrite <- app_assoc.
    + rewrite py_join_strs. mstep. rewrite (IH _ Hd'). cbn [fst snd].
      now rewrite <- !app_assoc.
Qed.

(** X4.  The armour class line.  Without a [components] table it is the
    three values between double quotes.  With a table of bonuses and lists
    of remarks, a parenthesis follows: the bonuses in the order of the
    table, each as its key and its signed value, joined by a comma, and
    then every list of remarks after a semicolon. *)
Theorem armor_class_line (monster_in ac : dict) (a touch flat : value)
  (f : stream) (keys_used : bool) :
  lookup (lit "AC") monster_in = Some (VDict ac) ->
  lookup (lit "AC") ac = Some a ->
  lookup (lit "touch") ac = Some touch ->
  lookup (lit "flat_footed") ac = Some flat ->
  (lookup (lit "components") ac = None ->
   step_AC isprintable (VDict monster_in) f keys_used
   = ((if keys_used then [KeyUsed (lit "AC")] else [])
      ++ [Emit f (lit "AC: " ++ dq ++ py_str isprintable a ++ lit ", touch "
                  ++ py_str isprintable touch ++ lit ", flat-footed "
                  ++ py_str isprintable flat ++ dq)], Ok tt))
  /\ (forall comps : list (pystr * component),
         NoDup (map fst comps) ->
         lookup (lit "components") ac = Some (components_table comps) ->
         step_AC isprintable (VDict monster_in) f keys_used
         = ((if keys_used then [KeyUsed (lit "AC")] else [])
            ++ [Emit f (lit "AC: " ++ dq ++ py_str isprintable a
                        ++ lit ", touch " ++ py_str isprintable touch
                        ++ lit ", flat-footed " ++ py_str isprintable flat
                        ++ lit " (" ++ join (lit ", ") (bonus_texts comps)
                        ++ remarks_text comps ++ lit ")" ++ dq)], Ok tt)).
Proof.
  intros Hac Ha Ht Hf. split.
  - intros Hc. unfold step_AC. cbn [path].
    rewrite !(item_found _ _ Hac). mstep.
    rewrite (item_found _ _ Ha), (item_found _ _ Ht), (item_found _ _ Hf). mstep.
    rewrite has_dict, (has_key_missing _ _ Hc). mstep.
    unfold print, tell, used, when, wq. cbn [join]. rewrite <- !app_assoc.
    destruct keys_used; reflexivity.
  - intros comps Hnd Hc. unfold step_AC. cbn [path].
    rewrite !(item_found _ _ Hac). mstep.
    rewrite (item_found _ _ Ha), (item_found _ _ Ht), (item_found _ _ Hf). mstep.
    rewrite has_dict, (has_key_found _ _ Hc). mstep.
    rewrite (item_found _ _ Hc). mstep.
    unfold ac_components, components_table. rewrite iter_dict. mstep.
    rewrite keys_map_snd.
    rewrite (@ac_components_fold
               (map (fun kc => (fst kc, component_value (snd kc))) comps)
               comps ([], [])).
    + mstep. cbn [fst snd app].
      unfold print, tell, used, when, wq. cbn [join]. rewrite <- !app_assoc.
      destruct keys_used; reflexivity.
    + intros k c Hin. apply lookup_nodup.
      * rewrite keys_map_snd. exact Hnd.
      * apply in_map_iff. now exists (k, c).
Qed.

Lemma resist_entries (d table : dict) :
  (forall k v, In (k, v) table -> lookup k d = Some v) ->
  map_m (fun key =>
           k <- need_str key ;;
           v <- getitem (VDict d) key ;;
           ret (k ++ lit " " ++ py_str isprintable v))
        (map VStr (keys table))
  = ret (map (fun kv => fst kv ++ lit " " ++ py_str isprintable (snd kv)) table).
Proof.
  unfold keys. induction table as [|[k v] table IH]; intros Hd;
    cbn [map fst snd map_m]; [reflexivity|].
  cbn [need_str]. mstep.
  rewrite (getitem_found _ _ (Hd k v (or_introl eq_refl))). mstep.
  rewrite IH by (intros; apply Hd; now right). mstep. reflexivity.
Qed.

Lemma dr_entries (items : list value) (entries : list (value * pystr)) :
  Forall2 (fun item aw =>
             exists d, item = VDict d
                       /\ lookup (lit "amount") d = Some (fst aw)
                       /\ lookup (lit "weakness") d = Some (VStr (snd aw)))
          items entries ->
  map_m (fun dr_source =>
           amount <- item dr_source "amount" ;;
           w <- item dr_source "weakness" ;;
           weakness <- need_str w ;;
           ret (py_str isprintable amount ++ lit "/" ++ weakness)) items
  = ret (map (fun aw => py_str isprintable (fst aw) ++ lit "/" ++ snd aw) entries).
Proof.
  induction 1 as [|it aw items entries (d & -> & Ha & Hw) _ IH];
    cbn [map map_m]; [reflexivity|].
  rewrite (item_found _ _ Ha). mstep. rewrite (item_found _ _ Hw). mstep.
  cbn [need_str]. mstep. rewrite IH. mstep. reflexivity.
Qed.

(** X5.  The resistances and the damage reductions are printed in the
    order the record has them.  The resistances line joins every key of
    the table with its value, in the order of the table; the DR line joins
    [amount/weakness] for every entry of the list, in the order of the
    list. *)
Theorem tables_keep_their_order (monster_in : dict) (f : stream)
  (keys_used : bool) :
  (forall table : dict,
      NoDup (keys table) ->
      lookup (lit "resistances") monster_in = Some (VDict table) ->
      step_resistances isprintable (VDict monster_in) f keys_used
      = ((if keys_used then [KeyUsed (lit "resistances")] else [])
         ++ [Emit f (lit "resist: " ++ dq
                     ++ join (lit ", ")
                          (map (fun kv => fst kv ++ lit " "
                                          ++ py_str isprintable (snd kv)) table)
                     ++ dq)], Ok tt))
  /\ (forall (items : list value) (entries : list (value * pystr)),
         Forall2 (fun item aw =>
                    exists d, item = VDict d
                              /\ lookup (lit "amount") d = Some (fst aw)
                              /\ lookup (lit "weakness") d = Some (VStr (snd aw)))
                 items entries ->
         lookup (lit "DR") monster_in = Some (VList items) ->
         step_DR isprintable (VDict monster_in) f keys_used
         = ((if keys_used then [KeyUsed (lit "DR")] else [])
            ++ [Emit f (lit "DR: " ++ dq
                        ++ join (lit ", ")
                             (map (fun aw => py_str isprintable (fst aw)
                                             ++ lit "/" ++ snd aw) entries)
                        ++ dq)], Ok tt)).
Proof.
  split.
  - intros table Hnd Hr. unfold step_resistances.
    rewrite has_dict, (has_key_found _ _ Hr). mstep. cbn [when].
    rewrite (item_found _ _ Hr). mstep. rewrite iter_dict. mstep.
    rewrite (@resist_entries table table)
      by (intros k v Hin; now apply lookup_nodup).
    mstep. destruct keys_used; reflexivity.
  - intros items entries Hshape Hdr. unfold step_DR.
    rewrite has_dict, (has_key_found _ _ Hdr). mstep. cbn [when].
    rewrite (item_found _ _ Hdr). mstep. cbn [iter]. mstep.
    rewrite (dr_entries Hshape). mstep.
    destruct keys_used; reflexivity.
Qed.

(** X6.  Whatever the text, the line that [to_desc] prints is made of
    printable ASCII characters only; in particular it holds no line break,
    so a description stays on one line of the file. *)
Theorem desc_line_is_printable_ascii (txt : value) (file : stream) :
  exists line,
    to_desc isprintable txt file = tell [Emit file line]
    /\ forallb printable_ascii line = true
    /\ ~ In ch_nl line.
Proof.
  eexists. split; [reflexivity|].
  assert (Hall : forallb printable_ascii
                   (join (lit " ")
                      [lit "    desc:";
                       dq ++ unicode_escape (py_str isprintable txt) ++ dq])
                 = true).
  { cbn [join]. rewrite !forallb_app, unicode_escape_printable. reflexivity. }
  split; [exact Hall|].
  intros Hin. rewrite forallb_forall in Hall. specialize (Hall _ Hin).
  discriminate Hall.
Qed.

(** X7.  The file of a record lies in the output folder itself: its name
    is the title with every slash replaced by [ or ], after [NPC ] under
    an NPC key, with the extension [.md]; the name has no slash, and the
    path is the folder, a slash if the folder does not end with one, and
    the name. *)
Theorem file_name_in_folder (outpath key title : pystr) :
  exists name,
    name = (if is_substring (lit "NPCDisplay") key then lit "NPC " else [])
           ++ replace_char ch_slash (lit " or ") title ++ lit ".md"
    /\ ~ In ch_slash name
    /\ file_name outpath key title
       = match outpath with
         | [] => name
         | _ => if (last outpath 0 =? ch_slash)%N then outpath ++ name
                else outpath ++ [ch_slash] ++ name
         end.
Proof.
  eexists. split; [reflexivity|].
  assert (Hclean : ~ In ch_slash (replace_char ch_slash (lit " or ") title
                                  ++ lit ".md")).
  { intros Hin. apply in_app_or in Hin. destruct Hin as [Hin|Hin].
    - revert Hin. apply replace_char_removes.
      cbn. intros H. repeat (destruct H as [H|H]; [discriminate H|]). exact H.
    - cbn in Hin. repeat (destruct Hin as [Hin|Hin]; [discriminate Hin|]).
      exact Hin. }
  assert (Hjoin : forall name : pystr,
             name <> [] -> ~ In ch_slash name ->
             path_join outpath name
             = match outpath with
               | [] => name
               | _ => if (last outpath 0 =? ch_slash)%N then outpath ++ name
                      else outpath ++ [ch_slash] ++ name
               end).
  { intros [|c name] Hne Hno; [congruence|]. unfold path_join.
    destruct (N.eqb_spec c ch_slash) as [->|_]; [|reflexivity].
    exfalso. apply Hno. now left. }
  unfold file_name. destruct (is_substring (lit "NPCDisplay") key).
  - split.
    + intros Hin. apply in_app_or in Hin. destruct Hin as [Hin|Hin]; [|auto].
      cbn in Hin. repeat (destruct Hin as [Hin|Hin]; [discriminate Hin|]).
      exact Hin.
    + apply Hjoin; [discriminate|].
      intros Hin. apply in_app_or in Hin. destruct Hin as [Hin|Hin]; [|auto].
      cbn in Hin. repeat (destruct Hin as [Hin|Hin]; [discriminate Hin|]).
      exact Hin.
  - cbn [app]. split; [exact Hclean|].
    apply Hjoin; [|exact Hclean].
    intros Hnil. apply (f_equal (@List.length N)) in Hnil.
    rewrite length_app in Hnil. cbn in Hnil. lia.
Qed.

Lemma process_record_keeps_files (outpath key : pystr) (monster_in : dict)
  (w : world) (name : pystr) (content : list pystr) :
  lookup name (w_files w) = Some content ->
  lookup name
    (w_files (world_of (process_record isprintable TypeError_text outpath key
                                       monster_in w)))
  = Some content.
Proof.
  intros Hname. unfold process_record, try_body.
  destruct (nth_error (split_char ch_slash key) 3); [|exact Hname].
  destruct (lookup (lit "title2") monster_in) as [[| | |title| |]|];
    try exact Hname.
  unfold write_monster. cbn [w_files].
  destruct (has_key (file_name outpath key title) (w_files w)) eqn:Hhas;
    [exact Hname|].
  assert (Hne : file_name outpath key title <> name).
  { intros Heq. unfold has_key in Hhas. rewrite Heq, Hname in Hhas.
    discriminate Hhas. }
  destruct (write_monster_to_file isprintable TypeError_text
              (retitled key title monster_in) OutFile true true (Some key))
    as [evs [[]|e]].
  - cbn [world_of]. rewrite (files_apply_events_other _ _ Hne).
    cbn [set_files w_files]. now rewrite (lookup_dict_set_ne _ _ Hne).
  - assert (Hkept : lookup name
                      (w_files (apply_events (Some (file_name outpath key title))
                                  evs
                                  (set_files
                                     (dict_set (file_name outpath key title) []
                                        (w_files w))
                                     {| w_files := w_files w;
                                        w_stdout := w_stdout w;
                                        w_keys_present :=
                                          fold_left (fun d k => add_key k d)
                                            (keys monster_in) (w_keys_present w);
                                        w_keys_used := w_keys_used w;
                                        w_source_dict := w_source_dict w |})))
                    = Some content).
    { rewrite (files_apply_events_other _ _ Hne).
      cbn [set_files w_files]. now rewrite (lookup_dict_set_ne _ _ Hne). }
    destruct e; cbn [world_of to_stdout w_files]; exact Hkept.
Qed.

(** X8.  No run of the driver's loop changes a file that is there: a file
    of the output folder has the same content after the loop, however the
    loop ends and whatever the records are. *)
Theorem existing_files_are_never_changed (outpath : pystr)
  (d : list (pystr * dict)) (w : world) (name : pystr) (content : list pystr) :
  lookup name (w_files w) = Some content ->
  lookup name
    (w_files (world_of (main_loop isprintable TypeError_text outpath d w)))
  = Some content.
Proof.
  revert w. induction d as [|[key monster_in] d IH]; intros w Hname;
    cbn [main_loop]; [exact Hname|].
  pose proof (@process_record_keeps_files outpath key monster_in w name content
                Hname) as Hstep.
  destruct (process_record isprintable TypeError_text outpath key monster_in w)
    as [w'|e w']; cbn [world_of] in *; [now apply IH | exact Hstep].
Qed.

(** X9.  When the destination is free, [write_monster] ends as the
    formatter does, and the new file holds the lines that the formatter
    printed, in order, also when the formatter raised: what was printed
    before the exception stays in the file.  Standard output gets what the
    formatter printed there, and no other file changes. *)
Theorem new_file_holds_what_was_printed (monster_in : dict) (name : pystr)
  (source_dict keys_used : bool) (url : option pystr) (w : world) :
  lookup name (w_files w) = None ->
  let run := write_monster_to_file isprintable TypeError_text monster_in OutFile
                                   source_dict keys_used url in
  let done := write_monster isprintable TypeError_text monster_in (Some name)
                            source_dict keys_used url w in
  snd done = snd run
  /\ lookup name (w_files (fst done)) = Some (file_texts (fst run))
  /\ w_stdout (fst done) = w_stdout w ++ stdout_texts (fst run)
  /\ forall other, name <> other ->
                   lookup other (w_files (fst done)) = lookup other (w_files w).
Proof.
  intros Hfree run done. subst run done. unfold write_monster.
  rewrite (has_key_missing _ _ Hfree).
  destruct (write_monster_to_file isprintable TypeError_text monster_in OutFile
                                  source_dict keys_used url) as [evs r].
  cbn [fst snd]. split; [reflexivity|]. split; [|split].
  - rewrite (@files_apply_events_same name evs _ []); [reflexivity|].
    cbn [set_files w_files]. apply lookup_dict_set_eq.
  - now rewrite stdout_apply_events.
  - intros other Hne. rewrite (files_apply_events_other _ _ Hne).
    cbn [set_files w_files]. now apply lookup_dict_set_ne.
Qed.

(** X10.  Without a file name [write_monster] never succeeds: it calls the
    formatter without [source_dict], and line 99 assigns into it. *)
Theorem stdout_mode_never_succeeds (monster_in : dict)
  (source_dict keys_used : bool) (url : option pystr) (w : world) :
  snd (write_monster isprintable TypeError_text monster_in None
                     source_dict keys_used url w) <> Ok tt.
Proof.
  unfold write_monster.
  destruct (write_monster_to_file isprintable TypeError_text monster_in Stdout
                                  false false None) as [evs [[]|e]] eqn:Hrun;
    cbn [snd]; [|discriminate].
  exfalso. unfold write_monster_to_file in Hrun.
  apply bind_ok_inv in Hrun. destruct Hrun as (e1 & name & e2 & H1 & Hrun & H2).
  apply bind_ok_inv in Hrun. destruct Hrun as (e3 & [] & e4 & H3 & Hrun & H4).
  destruct (in_order_ok_all _ Hrun (step_source (VDict monster_in) Stdout false))
    as [evs' Hstep].
  { unfold steps. do 1 right. left. reflexivity. }
  unfold step_source in Hstep.
  apply bind_ok_inv in Hstep. destruct Hstep as (e5 & srcs & e6 & H5 & Hstep & H6).
  apply bind_ok_inv in Hstep. destruct Hstep as (e7 & first & e8 & H7 & Hstep & H8).
  apply bind_ok_inv in Hstep. destruct Hstep as (e9 & source & e10 & H9 & Hstep & H10).
  cbn [andb] in Hstep. rewrite bind_raise in Hstep. discriminate Hstep.
Qed.

(** X11.  A record that the driver cannot name ends the run.  Under a key
    with fewer than three slashes line 571 raises [IndexError]; with a
    title that is not a string line 574 or 577 raises [AttributeError].
    The driver catches neither: the loop stops at that record, the records
    after it are not formatted, and no file and no line of output is
    added. *)
Theorem unnamed_record_ends_the_run (outpath key : pystr) (monster_in : dict)
  (w : world) (rest : list (pystr * dict)) :
  ((count_occ N.eq_dec key ch_slash < 3)%nat ->
   exists w',
     main_loop isprintable TypeError_text outpath ((key, monster_in) :: rest) w
     = Terminated IndexError w'
     /\ w_files w' = w_files w /\ w_stdout w' = w_stdout w)
  /\ (forall title : value,
         (3 <= count_occ N.eq_dec key ch_slash)%nat ->
         lookup (lit "title2") monster_in = Some title ->
         (forall s, title <> VStr s) ->
         exists w',
           main_loop isprintable TypeError_text outpath
                     ((key, monster_in) :: rest) w
           = Terminated AttributeError w'
           /\ w_files w' = w_files w /\ w_stdout w' = w_stdout w).
Proof.
  split.
  - intros Hshort. cbn [main_loop]. unfold process_record, try_body.
    assert (Hnth : nth_error (split_char ch_slash key) 3 = None).
    { apply nth_error_None. rewrite length_split_char. lia. }
    rewrite Hnth. eexists. split; [reflexivity|]. split; reflexivity.
  - intros title Hlong Htitle Hnostr. cbn [main_loop].
    unfold process_record, try_body.
    destruct (nth_error (split_char ch_slash key) 3) eqn:Hnth.
    + rewrite Htitle.
      destruct title as [| | |s| |]; try (eexists; repeat split; reflexivity).
      exfalso. now apply (Hnostr s).
    + apply nth_error_None in Hnth. rewrite length_split_char in Hnth. lia.
Qed.

(** The record with another table of saving throws looks the same to
    every subscript but [saves]. *)
Lemma lookup_retitled_saves (key title x : pystr) (monster_in : dict)
  (saves : value) :
  pystr_eqb (lit "saves") x = false ->
  lookup x (retitled key title (dict_set (lit "saves") saves monster_in))
  = lookup x (retitled key title monster_in).
Proof.
  intros Hx. apply pystr_eqb_neq in Hx. unfold retitled.
  destruct (is_substring (lit "NPCDisplay") key).
  - destruct (pystr_eqb_spec (lit "title2") x) as [<-|Hne].
    + now rewrite !lookup_dict_set_eq.
    + rewrite !(lookup_dict_set_ne _ _ Hne). now apply lookup_dict_set_ne.
  - now apply lookup_dict_set_ne.
Qed.

Lemma lookup_retitled_saves_same (key title : pystr) (monster_in : dict)
  (saves : value) :
  lookup (lit "saves")
         (retitled key title (dict_set (lit "saves") saves monster_in))
  = Some saves.
Proof.
  unfold retitled. destruct (is_substring (lit "NPCDisplay") key).
  - rewrite lookup_dict_set_ne by discriminate. apply lookup_dict_set_eq.
  - apply lookup_dict_set_eq.
Qed.

Hint Unfold step_front_matter step_source step_CR step_name step_XP step_race
  step_classes step_alignment step_size step_type step_subtypes step_initiative
  step_perception step_senses step_auras step_AC step_HP step_HD
  print_field print_joined : before_saves.

Ltac quiet_step :=
  autounfold with before_saves;
  repeat first
    [ apply quiet_print
    | apply quiet_used
    | apply quiet_source_seen
    | apply quiet_pure; solve [pure_tac]
    | apply quiet_bind; [|intros]
    | apply quiet_for_each; intros
    | match goal with
      | |- quiet (when ?b _) => destruct b; cbn [when]
      | |- quiet (if ?b then _ else _) => destruct b
      | |- quiet (match ?x with _ => _ end) => destruct x
      end ].

(** X12.  A saving throw given as text ends the whole run.  Take a record
    that the driver formats into a free destination, and give it a [saves]
    table whose [fort] is a string: ['{0:+}'.format] raises [ValueError],
    which the driver does not catch.  The loop stops at that record, the
    records after it are not formatted, nothing is printed on standard
    output, and the file of the record stays, with the lines printed before
    the saves. *)
Theorem text_save_ends_the_run (outpath key title part s : pystr)
  (monster_in saves : dict) (w : world) (rest : list (pystr * dict)) :
  nth_error (split_char ch_slash key) 3 = Some part ->
  lookup (lit "title2") monster_in = Some (VStr title) ->
  lookup (file_name outpath key title) (w_files w) = None ->
  snd (write_monster_to_file isprintable TypeError_text
         (retitled key title monster_in) OutFile true true (Some key)) = Ok tt ->
  lookup (lit "fort") saves = Some (VStr s) ->
  exists w',
    main_loop isprintable TypeError_text outpath
      ((key, dict_set (lit "saves") (VDict saves) monster_in) :: rest) w
    = Terminated ValueError w'
    /\ w_stdout w' = w_stdout w
    /\ exists lines, lookup (file_name outpath key title) (w_files w') = Some lines.
Proof.
  intros Hkey Htitle Hfree Hok Hfort.
  set (record' := retitled key title
                    (dict_set (lit "saves") (VDict saves) monster_in)).
  set (record := retitled key title monster_in) in *.
  assert (Hitem : forall x : string,
             pystr_eqb (lit "saves") (lit x) = false ->
             item (VDict record') x = item (VDict record) x).
  { intros x Hx. unfold item, getitem. cbn [hashable]. subst record' record.
    now rewrite (@lookup_retitled_saves key title (lit x) monster_in (VDict saves) Hx). }
  assert (Hhas : forall x : string,
             pystr_eqb (lit "saves") (lit x) = false ->
             has x (VDict record') = has x (VDict record)).
  { intros x Hx. rewrite !has_dict. unfold has_key. subst record' record.
    now rewrite (@lookup_retitled_saves key title (lit x) monster_in (VDict saves) Hx). }
  assert (Hsaves : item (VDict record') "saves" = ret (VDict saves)).
  { apply item_found. subst record'. apply lookup_retitled_saves_same. }
  destruct (write_monster_to_file isprintable TypeError_text record OutFile
                                  true true (Some key)) as [evs r] eqn:Hrun.
  cbn [snd] in Hok. subst r.
  assert (Hrun' : exists evs',
             write_monster_to_file isprintable TypeError_text record' OutFile
                                   true true (Some key)
             = (evs', Raise ValueError)
             /\ stdout_texts evs' = []).
  { unfold write_monster_to_file in *.
    apply (pure_bind_ok_inv _ (pure_item (VDict record) "title2")) in Hrun.
    destruct Hrun as (name & Hname & Hrun).
    apply bind_ok_inv in Hrun.
    destruct Hrun as (evs1 & [] & evs2 & Hused & Hrun & ->).
    assert (Hwalk : fails_after ValueError
              (steps isprintable TypeError_text (VDict record') name
                     OutFile true true (Some key))
              (steps isprintable TypeError_text (VDict record) name
                     OutFile true true (Some key))).
    { unfold steps.
      do 18 (apply fails_next;
             [ solve [ autounfold with before_saves; cbn [path map_m];
                       repeat (rewrite Hitem by reflexivity);
                       repeat (rewrite Hhas by reflexivity);
                       reflexivity ]
             | solve [quiet_step]
             | ]).
      eapply fails_here.
      - unfold step_saves. rewrite Hsaves. mstep.
        rewrite (item_found _ _ Hfort). mstep. cbn [format_plus]. mstep.
        reflexivity.
      - reflexivity. }
    destruct (Hwalk _ Hrun) as (evs' & Hrun' & Hq).
    exists (evs1 ++ evs'). split.
    - rewrite (Hitem "title2"%string eq_refl), Hname, bind_ret, Hused, bind_ok, Hrun'.
      reflexivity.
    - rewrite stdout_texts_app, Hq. injection Hused as <-. reflexivity. }
  destruct Hrun' as (evs' & Hrun' & Hq).
  cbn [main_loop]. unfold process_record, try_body. rewrite Hkey.
  rewrite lookup_dict_set_ne by discriminate. rewrite Htitle.
  unfold write_monster. cbn [w_files].
  rewrite (has_key_missing _ _ Hfree). fold record'. rewrite Hrun'.
  eexists. split; [reflexivity|]. split.
  - rewrite stdout_apply_events, Hq, app_nil_r. reflexivity.
  - eexists. apply files_apply_events_same.
    cbn [set_files w_files]. apply lookup_dict_set_eq.
Qed.

Lemma speed_fold (d table : dict) (speed : list pystr) :
  (forall k v, In (k, v) table -> lookup k d = Some v) ->
  fold_m (map VStr (keys table)) (speed_entry isprintable (VDict d)) speed
  = ret (speed ++ map (speed_text isprintable) (filter other_speed table)).
Proof.
  unfold keys. revert speed.
  induction table as [|[k v] table IH]; intros speed Hd;
    cbn [map fst fold_m filter].
  - now rewrite app_nil_r.
  - assert (Hd' : forall k v, In (k, v) table -> lookup k d = Some v)
      by (intros; apply Hd; now right).
    unfold speed_entry at 1, is_lit, other_speed. rewrite !py_eq_str. cbn [fst].
    destruct (pystr_eqb k (lit "base")); cbn [negb andb];
      [mstep; now apply IH|].
    destruct (pystr_eqb k (lit "fly")); cbn [negb andb];
      [mstep; now apply IH|].
    destruct (pystr_eqb k (lit "fly_maneuverability")); cbn [negb andb];
      [mstep; now apply IH|].
    cbn [map]. unfold speed_text at 1. cbn [fst snd].
    rewrite (getitem_found _ _ (Hd k v (or_introl eq_refl))).
    destruct (pystr_eqb k (lit "base_other")).
    + mstep. rewrite (IH _ Hd'). now rewrite <- app_assoc.
    + cbn [need_str]. mstep. rewrite (IH _ Hd'). now rewrite <- app_assoc.
Qed.

(** X13.  The loop over the speeds table never fails and skips three keys
    only.  After the base and fly entries, the speed list has one entry
    for every key of the table other than [base], [fly] and
    [fly_maneuverability], in the order of the table: the value after a
    space for [base_other], and the key, the value and [ft.] for any other
    key. *)
Theorem speeds_after_base_and_fly (speeds : dict) (speed : list pystr) :
  NoDup (keys speeds) ->
  speed_head isprintable (VDict speeds) = ret speed ->
  speed_items isprintable (VDict speeds)
  = ret (speed ++ map (speed_text isprintable) (filter other_speed speeds)).
Proof.
  intros Hnd Hhead. unfold speed_items. rewrite Hhead. mstep.
  rewrite iter_dict. mstep. apply speed_fold.
  intros k v Hin. now apply lookup_nodup.
Qed.

Lemma skills_fold (d table : dict) (acc : list pystr) :
  (forall k v, In (k, v) table -> lookup k d = Some v) ->
  (forall k v, In (k, v) table -> listed_skill (k, v) = true -> plain_score v) ->
  fold_m (map VStr (keys table))
    (fun acc s =>
       if is_lit s "_racial_mods" then ret acc
       else
         v <- (e <- getitem (VDict d) s ;; item e "_") ;;
         val <- match v with
                | VNone => ret []
                | _ => format_plus v
                end ;;
         key <- need_str s ;;
         ret (acc ++ [key ++ lit " " ++ val]))
    acc
  = ret (acc ++ map (fun kv => fst kv ++ lit " " ++ score_text (snd kv))
                    (filter listed_skill table)).
Proof.
  unfold keys. revert acc.
  induction table as [|[k v] table IH]; intros acc Hd Hplain;
    cbn [map fst fold_m filter].
  - now rewrite app_nil_r.
  - assert (Hd' : forall k v, In (k, v) table -> lookup k d = Some v)
      by (intros; apply Hd; now right).
    assert (Hplain' : forall k v, In (k, v) table ->
                                  listed_skill (k, v) = true -> plain_score v)
      by (intros k0 v0 Hin; apply Hplain; now right).
    unfold is_lit. rewrite py_eq_str.
    unfold listed_skill at 1. cbn [fst].
    destruct (pystr_eqb k (lit "_racial_mods")) eqn:E; cbn [negb].
    + mstep. now apply IH.
    + destruct (Hplain k v (or_introl eq_refl)) as (e & -> & Hscore).
      { unfold listed_skill. cbn [fst]. now rewrite E. }
      rewrite (getitem_found _ _ (Hd _ _ (or_introl eq_refl))). mstep.
      cbn [map fst snd score_text].
      destruct Hscore as [Hnone|[z Hz]].
      * rewrite (item_found _ _ Hnone), Hnone. mstep. cbn [need_str]. mstep.
        rewrite (IH _ Hd' Hplain'). now rewrite <- app_assoc.
      * rewrite (item_found _ _ Hz), Hz. mstep. cbn [format_plus need_str]. mstep.
        rewrite (IH _ Hd' Hplain'). now rewrite <- app_assoc.
Qed.

(** X14.  The skills line.  For a skills table whose scores are integers
    or [None], the line lists every skill but [_racial_mods], in the order
    of the table: the name, a space, and the signed score, or nothing after
    the space when the score is [None].  Without racial modifiers the step
    prints that line and no other. *)
Theorem skills_line (monster_in table : dict) (f : stream) (keys_used : bool) :
  NoDup (keys table) ->
  (forall k v, In (k, v) table -> listed_skill (k, v) = true -> plain_score v) ->
  lookup (lit "skills") monster_in = Some (VDict table) ->
  skills_items (VDict table)
  = ret (map (fun kv => fst kv ++ lit " " ++ score_text (snd kv))
             (filter listed_skill table))
  /\ (lookup (lit "_racial_mods") table = None ->
      step_skills isprintable TypeError_text (VDict monster_in) f keys_used
      = ((if keys_used then [KeyUsed (lit "skills")] else [])
         ++ [Emit f (lit "skills: " ++ dq
                     ++ join (lit ", ")
                          (map (fun kv => fst kv ++ lit " " ++ score_text (snd kv))
                               (filter listed_skill table))
                     ++ dq)], Ok tt)).
Proof.
  intros Hnd Hplain Hskills.
  assert (Hitems : skills_items (VDict table)
                   = ret (map (fun kv => fst kv ++ lit " " ++ score_text (snd kv))
                              (filter listed_skill table))).
  { unfold skills_items. cbn [keys_of]. mstep.
    replace (map (fun kv : pystr * value => VStr (fst kv)) table)
      with (map VStr (keys table)) by (unfold keys; now rewrite map_map).
    apply (@skills_fold table table []); [|exact Hplain].
    intros k v Hin. now apply lookup_nodup. }
  split; [exact Hitems|].
  intros Hmods. unfold step_skills.
  rewrite has_dict, (has_key_found _ _ Hskills). mstep. cbn [when].
  rewrite (item_found _ _ Hskills). mstep. rewrite Hitems. mstep.
  rewrite has_dict, (has_key_missing _ _ Hmods). mstep. cbn [when].
  destruct keys_used; reflexivity.
Qed.

(** X16.  The saving throws.  For integer saves the line has the three
    signed values after [Fort], [Ref] and [Will]; a second line with the
    text of [other] follows when the table has it, and only then. *)
Theorem saving_throws_lines (monster_in saves : dict) (fort ref will : Z)
  (f : stream) (keys_used : bool) :
  lookup (lit "saves") monster_in = Some (VDict saves) ->
  lookup (lit "fort") saves = Some (VInt fort) ->
  lookup (lit "ref") saves = Some (VInt ref) ->
  lookup (lit "will") saves = Some (VInt will) ->
  let line := lit "saves: " ++ dq ++ lit "Fort " ++ signed_of_Z fort
              ++ lit ", Ref " ++ signed_of_Z ref
              ++ lit ", Will " ++ signed_of_Z will ++ dq in
  (lookup (lit "other") saves = None ->
   step_saves (VDict monster_in) f keys_used
   = ((if keys_used then [KeyUsed (lit "saves")] else []) ++ [Emit f line],
      Ok tt))
  /\ (forall other : pystr,
         lookup (lit "other") saves = Some (VStr other) ->
         step_saves (VDict monster_in) f keys_used
         = ((if keys_used then [KeyUsed (lit "saves")] else [])
            ++ [Emit f line; Emit f (lit "saves_other: " ++ dq ++ other ++ dq)],
            Ok tt)).
Proof.
  intros Hs Hf Hr Hw line. subst line. split.
  - intros Ho. unfold step_saves.
    rewrite (item_found _ _ Hs). mstep.
    rewrite (item_found _ _ Hf), (item_found _ _ Hr), (item_found _ _ Hw). mstep.
    cbn [format_plus]. mstep.
    rewrite has_dict, (has_key_missing _ _ Ho). mstep.
    unfold print, tell, used, when, wq. cbn [join]. rewrite <- !app_assoc.
    destruct keys_used; reflexivity.
  - intros other Ho. unfold step_saves.
    rewrite (item_found _ _ Hs). mstep.
    rewrite (item_found _ _ Hf), (item_found _ _ Hr), (item_found _ _ Hw). mstep.
    cbn [format_plus]. mstep.
    rewrite has_dict, (has_key_found _ _ Ho). mstep.
    rewrite (item_found _ _ Ho). mstep. cbn [need_str]. mstep.
    unfold print, tell, used, when, wq. cbn [join]. rewrite <- !app_assoc.
    destruct keys_used; reflexivity.
Qed.


(** X18.  The dictionary [keys_used] records a field before the step
    tests for it: a step whose field is absent records the field all the
    same, and nothing else.  The one exception is [defensive_abilities],
    recorded only when the record has it. *)
Theorem absent_field_is_recorded_as_used (monster_in : dict) (f : stream)
  (k : string) (step : value -> stream -> bool -> M unit) :
  In (k, step) (optional_steps isprintable TypeError_text) ->
  lookup (lit k) monster_in = None ->
  fst (step (VDict monster_in) f true)
  = if String.eqb k "defensive_abilities" then [] else [KeyUsed (lit k)].
Proof.
  unfold optional_steps. cbn [In]. intros Hin Habsent.
  repeat (destruct Hin as [[= <- <-]|Hin];
          [ autounfold with optional;
            rewrite ?has_dict, (has_key_missing _ _ Habsent); mstep;
            rewrite ?has_dict, ?(has_key_missing _ _ Habsent); mstep;
            rewrite ?has_dict, ?(has_key_missing _ _ Habsent); mstep;
            reflexivity |]).
  destruct Hin.
Qed.

Lemma named_entries (d table : dict) (f : stream) :
  (forall k v, In (k, v) table -> lookup k d = Some v) ->
  for_each (map VStr (keys table))
    (fun sa =>
       print f [lit "  - name:"; py_str isprintable sa] ;;
       v <- getitem (VDict d) sa ;;
       to_desc isprintable v f)
  = (flat_map (fun kv => [Emit f (lit "  - name: " ++ fst kv);
                          Emit f (desc_text (py_str isprintable (snd kv)))])
              table, Ok tt).
Proof.
  unfold keys. induction table as [|[k v] table IH]; intros Hd;
    cbn [map fst snd for_each flat_map]; [reflexivity|].
  rewrite (getitem_found _ _ (Hd k v (or_introl eq_refl))). mstep.
  rewrite IH by (intros; apply Hd; now right).
  reflexivity.
Qed.

(** X19.  The special abilities and the tactics are printed entry by
    entry, in the order of the record: after the heading, every entry
    gives a [name] line with its key and a [desc] line with its escaped
    text. *)
Theorem named_lists_entry_by_entry (monster_in table : dict) (f : stream)
  (keys_used : bool) :
  NoDup (keys table) ->
  (lookup (lit "special_abilities") monster_in = Some (VDict table) ->
   step_special_abilities isprintable (VDict monster_in) f keys_used
   = ((if keys_used then [KeyUsed (lit "special_abilities")] else [])
      ++ Emit f (lit "special_abilities:")
         :: flat_map (fun kv => [Emit f (lit "  - name: " ++ fst kv);
                                 Emit f (desc_text (py_str isprintable (snd kv)))])
                     table, Ok tt))
  /\ (lookup (lit "tactics") monster_in = Some (VDict table) ->
      step_tactics isprintable (VDict monster_in) f keys_used
      = ((if keys_used then [KeyUsed (lit "tactics")] else [])
         ++ Emit f (lit "tactics:")
            :: flat_map (fun kv => [Emit f (lit "  - name: " ++ fst kv);
                                    Emit f (desc_text
                                              (py_str isprintable (snd kv)))])
                        table, Ok tt)).
Proof.
  intros Hnd.
  assert (Hd : forall k v, In (k, v) table -> lookup k table = Some v)
    by (intros; now apply lookup_nodup).
  split; intros Hfield.
  - unfold step_special_abilities.
    rewrite has_dict, (has_key_found _ _ Hfield). mstep. cbn [when].
    rewrite (item_found _ _ Hfield). mstep. cbn [keys_of]. mstep.
    replace (map (fun kv : pystr * value => VStr (fst kv)) table)
      with (map VStr (keys table)) by (unfold keys; now rewrite map_map).
    rewrite (@named_entries table table f Hd).
    destruct keys_used; reflexivity.
  - unfold step_tactics.
    rewrite has_dict, (has_key_found _ _ Hfield). mstep. cbn [when].
    rewrite (item_found _ _ Hfield). mstep. rewrite iter_dict. mstep.
    rewrite (@named_entries table table f Hd).
    destruct keys_used; reflexivity.
Qed.


(** ** The escape loses nothing *)

Lemma hexdigit_inj (a b : N) :
  (a < 16)%N -> (b < 16)%N -> hexdigit a = hexdigit b -> a = b.
Proof.
  unfold hexdigit. intros Ha Hb.
  destruct (N.ltb_spec a 10), (N.ltb_spec b 10); lia.
Qed.

Lemma nibble_digit (c : N) (i : nat) :
  N.land (N.shiftr c (4 * N.of_nat i)) 15 = ((c / 16 ^ N.of_nat i) mod 16)%N.
Proof.
  change 15%N with (N.ones 4). rewrite N.land_ones, N.shiftr_div_pow2.
  rewrite N.pow_mul_r. reflexivity.
Qed.

Lemma hex_digits_digits (width : nat) (a b : N) :
  hex_digits width a = hex_digits width b ->
  forall i : nat, (i < width)%nat ->
    ((a / 16 ^ N.of_nat i) mod 16 = (b / 16 ^ N.of_nat i) mod 16)%N.
Proof.
  unfold hex_digits. intros H i Hi.
  rewrite map_ext_in_iff in H.
  assert (Hin : In i (rev (seq 0 width))).
  { apply in_rev. rewrite rev_involutive. apply in_seq. lia. }
  specialize (H i Hin). cbv beta in H.
  rewrite !nibble_digit in H.
  apply hexdigit_inj in H; [exact H| |]; apply N.mod_lt; discriminate.
Qed.

Lemma digits_mod (width : nat) (a b : N) :
  (forall i : nat, (i < width)%nat ->
     ((a / 16 ^ N.of_nat i) mod 16 = (b / 16 ^ N.of_nat i) mod 16)%N) ->
  (a mod 16 ^ N.of_nat width = b mod 16 ^ N.of_nat width)%N.
Proof.
  induction width as [|w IH]; intros H.
  - cbn. now rewrite !N.mod_1_r.
  - rewrite Nat2N.inj_succ, N.pow_succ_r', (N.mul_comm 16).
    rewrite !N.Div0.mod_mul_r.
    rewrite IH by (intros i Hi; apply H; lia).
    rewrite (H w) by lia. reflexivity.
Qed.

Lemma hex_digits_inj (width : nat) (a b : N) :
  (a < 16 ^ N.of_nat width)%N -> (b < 16 ^ N.of_nat width)%N ->
  hex_digits width a = hex_digits width b -> a = b.
Proof.
  intros Ha Hb H.
  pose proof (@digits_mod width a b (@hex_digits_digits width a b H)) as Hm.
  now rewrite !N.mod_small in Hm.
Qed.

Lemma hex_digits_length (width : nat) (c : N) :
  List.length (hex_digits width c) = width.
Proof. unfold hex_digits. now rewrite length_map, length_rev, length_seq. Qed.

Lemma app_same_length (A : Type) (l1 l2 r1 r2 : list A) :
  List.length l1 = List.length l2 -> l1 ++ r1 = l2 ++ r2 -> l1 = l2 /\ r1 = r2.
Proof.
  revert l2. induction l1 as [|x l1 IH]; intros [|y l2] Hl H;
    try discriminate Hl.
  - now split.
  - cbn [app] in H. injection H as -> H. injection Hl as Hl.
    destruct (IH _ Hl H) as [-> ->]. now split.
Qed.

Lemma hex_digits_apart (width : nat) (a b : N) (X Y : pystr) :
  (a < 16 ^ N.of_nat width)%N -> (b < 16 ^ N.of_nat width)%N ->
  hex_digits width a ++ X = hex_digits width b ++ Y -> a = b /\ X = Y.
Proof.
  intros Ha Hb H.
  apply app_same_length in H; [|now rewrite !hex_digits_length].
  destruct H as [H ->]. split; [|reflexivity].
  exact (@hex_digits_inj width a b Ha Hb H).
Qed.

Lemma cons_eq (A : Type) (x y : A) (l m : list A) :
  x :: l = y :: m -> x = y /\ l = m.
Proof. intros H. injection H as Hx Hl. now split. Qed.

Lemma unicode_escape_char_form (ch : N) :
  code_point ch ->
  (ch <> 92%N /\ unicode_escape_char ch = [ch])
  \/ exists (mark : N) (rest : pystr),
       unicode_escape_char ch = 92%N :: mark :: rest /\ escaped ch mark rest.
Proof.
  unfold code_point, unicode_escape_char, ch_backslash, ch_tab, ch_nl, ch_cr.
  intros Hch.
  destruct (N.ltb_spec ch 256) as [Hlt|Hge].
  - destruct (printable_ascii ch).
    + destruct (N.eqb_spec ch 92) as [Heq|Hne]; [right|left; now split].
      exists 92%N, []. split; [reflexivity|now apply escaped_backslash].
    + right.
      destruct (N.eqb_spec ch 9);
        [exists 116%N, []; split; [reflexivity|now apply escaped_tab]|].
      destruct (N.eqb_spec ch 10);
        [exists 110%N, []; split; [reflexivity|now apply escaped_nl]|].
      destruct (N.eqb_spec ch 13);
        [exists 114%N, []; split; [reflexivity|now apply escaped_cr]|].
      exists 120%N, (hex_digits 2 ch).
      split; [reflexivity|apply escaped_x; exact Hlt].
  - right. destruct (N.ltb_spec ch 65536) as [Hlt|Hge'].
    + exists 117%N, (hex_digits 4 ch).
      split; [reflexivity|apply escaped_u; exact Hlt].
    + exists 85%N, ([48; 48]%N ++ hex_digits 6 ch).
      split; [reflexivity|apply escaped_U].
      change (16 ^ N.of_nat 6)%N with 16777216%N. lia.
Qed.

Lemma escaped_apart (a b mark : N) (ra rb X Y : pystr) :
  escaped a mark ra -> escaped b mark rb ->
  ra ++ X = rb ++ Y -> a = b /\ X = Y.
Proof.
  intros Ea Eb H.
  destruct Ea as [Ha|Ha|Ha|Ha|Ha|Ha|Ha]; inversion Eb as [Hb|Hb|Hb|Hb|Hb|Hb|Hb];
    subst rb.
  - split; [congruence|exact H].
  - split; [congruence|exact H].
  - split; [congruence|exact H].
  - split; [congruence|exact H].
  - exact (@hex_digits_apart 2 a b X Y Ha Hb H).
  - exact (@hex_digits_apart 4 a b X Y Ha Hb H).
  - rewrite <- !app_assoc in H. apply app_inv_head in H.
    exact (@hex_digits_apart 6 a b X Y Ha Hb H).
Qed.

(** No escape is the beginning of another: two escapes followed by
    anything agree only for the same character and the same rest. *)
Lemma unicode_escape_char_apart (a b : N) (X Y : pystr) :
  code_point a -> code_point b ->
  unicode_escape_char a ++ X = unicode_escape_char b ++ Y ->
  a = b /\ X = Y.
Proof.
  intros Ha Hb H.
  destruct (@unicode_escape_char_form a Ha)
    as [[Na Ea]|(ma & ra & Ea & Fa)];
    destruct (@unicode_escape_char_form b Hb)
      as [[Nb Eb]|(mb & rb & Eb & Fb)];
    rewrite Ea, Eb in H; cbn [app] in H; apply cons_eq in H;
    destruct H as [Hhead H].
  - exact (conj Hhead H).
  - contradiction.
  - symmetry in Hhead. contradiction.
  - apply cons_eq in H. destruct H as [Hmark H]. subst mb.
    exact (@escaped_apart a b ma ra rb X Y Fa Fb H).
Qed.

Lemma unicode_escape_char_cons (ch : N) :
  code_point ch ->
  exists (c : N) (rest : pystr), unicode_escape_char ch = c :: rest.
Proof.
  intros Hch.
  destruct (@unicode_escape_char_form ch Hch) as [[_ E]|(m & r & E & _)];
    rewrite E; eauto.
Qed.

Lemma unicode_escape_inj (s t : pystr) :
  Forall code_point s -> Forall code_point t ->
  unicode_escape s = unicode_escape t -> s = t.
Proof.
  unfold unicode_escape. intros Hs. revert t.
  induction Hs as [|a s Ha Hs IH]; intros t Ht H.
  - destruct Ht as [|b t Hb Ht]; [reflexivity|]. exfalso.
    cbn [flat_map] in H.
    destruct (@unicode_escape_char_cons b Hb) as (c & r & E).
    rewrite E in H. discriminate H.
  - destruct Ht as [|b t Hb Ht].
    + exfalso. cbn [flat_map] in H.
      destruct (@unicode_escape_char_cons a Ha) as (c & r & E).
      rewrite E in H. discriminate H.
    + cbn [flat_map] in H.
      destruct (@unicode_escape_char_apart a b _ _ Ha Hb H) as [-> H'].
      f_equal. exact (IH t Ht H').
Qed.

(** X21.  The escape loses nothing: two strings of code points that differ
    never give the same [desc] line.  A backslash followed by [n] in the
    text and a line break in the text, for instance, stay apart, because
    the backslash is doubled. *)
Theorem desc_lines_tell_texts_apart (s t : pystr) (file : stream) :
  Forall code_point s -> Forall code_point t ->
  s <> t ->
  to_desc isprintable (VStr s) file <> to_desc isprintable (VStr t) file.
Proof.
  intros Hs Ht Hne H. apply Hne. rewrite !to_desc_str in H.
  unfold tell, desc_text in H.
  injection H as H.
  apply app_inv_tail in H.
  exact (@unicode_escape_inj s t Hs Ht H).
Qed.

End MoreProperties.

(** X15.  The [-t] option selects no record.  The command line gives
    [args.test] as a string, lines 531-543 compare it with the integers 1
    to 6, and a string equals no integer: no branch binds [example], so
    line 545 raises [NameError] whatever number was typed.  (An integer
    would select a record.) *)
Theorem test_option_selects_nothing :
  (forall s : pystr, select_example (VStr s) = None)
  /\ (forall z : Z, (1 <= z <= 6)%Z -> select_example (VInt z) <> None).
Proof.
  split.
  - intros s. reflexivity.
  - intros z Hz. unfold select_example. cbn [py_eq].
    destruct (Z.eqb_spec z 1); [discriminate|].
    destruct (Z.eqb_spec z 2); [discriminate|].
    destruct (Z.eqb_spec z 3); [discriminate|].
    destruct (Z.eqb_spec z 4); [discriminate|].
    destruct (Z.eqb_spec z 5); [discriminate|].
    destruct (Z.eqb_spec z 6); [discriminate|]. lia.
Qed.

(** ** The further properties on records of the corpus *)

Lemma document_frame_example :
  exists (title : value) (middle : list pystr),
    lookup (lit "title2") goblin = Some title
    /\ printed (fst (write_monster_to_file no_unicode some_text goblin OutFile
                                           true true None))
       = [lit "---"; lit "statblock: inline"; lit "tags: monster";
          lit "name: " ++ py_str no_unicode title; lit "---";
          lit "```statblock"; lit "layout: Basic Pathfinder 1e Layout"]
         ++ middle
         ++ [lit "```encounter-table";
             lit "name: " ++ py_str no_unicode title;
             lit "creatures:";
             lit "  - 1: " ++ py_str no_unicode title;
             lit "```"].
Proof.
  exact (@document_frame no_unicode some_text goblin OutFile true true None
           _ eq_refl).
Defined.

Lemma absent_race_example :
  printed (fst (step_race no_unicode (VDict goblin) OutFile true)) = []
  /\ snd (step_race no_unicode (VDict goblin) OutFile true) = Ok tt.
Proof.
  exact (@absent_optional_field_prints_nothing no_unicode some_text goblin
           OutFile true "race" (step_race no_unicode)
           (or_introl eq_refl) eq_refl).
Defined.

Lemma initiative_line_example :
  step_initiative no_unicode (VDict goblin) OutFile true
  = ([KeyUsed (lit "initiative"); Emit OutFile (lit "INI: +6")], Ok tt).
Proof.
  exact (proj1 (@initiative_line no_unicode goblin [field "bonus" (VInt 6)]
                  OutFile true eq_refl) 6%Z eq_refl).
Defined.

Lemma armor_class_line_example :
  step_AC no_unicode (VDict goblin) OutFile true
  = ([KeyUsed (lit "AC");
      Emit OutFile (lit "AC: " ++ dq
                    ++ lit "16, touch 13, flat-footed 14 (armor +2, Dex +2)"
                    ++ dq)], Ok tt).
Proof.
  exact (proj2 (@armor_class_line no_unicode goblin
                  [field "AC" (VInt 16); field "touch" (VInt 13);
                   field "flat_footed" (VInt 14);
                   field "components" (VDict [field "armor" (VInt 2);
                                              field "Dex" (VInt 2)])]
                  (VInt 16) (VInt 13) (VInt 14) OutFile true
                  eq_refl eq_refl eq_refl eq_refl)
               [(lit "armor", Bonus 2); (lit "Dex", Bonus 2)]
               (@distinct_NoDup [lit "armor"; lit "Dex"] eq_refl) eq_refl).
Defined.

Lemma tables_keep_their_order_example :
  step_resistances no_unicode
    (VDict [field "resistances" (VDict [field "fire" (VInt 10);
                                        field "acid" (VInt 5)])])
    OutFile false
  = ([Emit OutFile (lit "resist: " ++ dq ++ lit "fire 10, acid 5" ++ dq)], Ok tt).
Proof.
  exact (proj1 (tables_keep_their_order no_unicode
                  [field "resistances" (VDict [field "fire" (VInt 10);
                                               field "acid" (VInt 5)])]
                  OutFile false)
               [field "fire" (VInt 10); field "acid" (VInt 5)]
               (@distinct_NoDup [lit "fire"; lit "acid"] eq_refl) eq_refl).
Defined.

Lemma existing_files_example :
  lookup (lit "bestiary/Goblin.md")
    (w_files (world_of (main_loop no_unicode some_text bestiary
                          [(goblin_key, goblin);
                           (lit "https://aonprd.com/MonsterDisplay.aspx?ItemName=Cleric",
                            cleric)]
                          taken_world)))
  = Some [lit "kept"].
Proof.
  exact (@existing_files_are_never_changed no_unicode some_text bestiary
           [(goblin_key, goblin);
            (lit "https://aonprd.com/MonsterDisplay.aspx?ItemName=Cleric", cleric)]
           taken_world (lit "bestiary/Goblin.md") [lit "kept"] eq_refl).
Defined.

Lemma new_file_example :
  lookup (lit "bestiary/Goblin.md")
    (w_files (fst (write_monster no_unicode some_text goblin
                                 (Some (lit "bestiary/Goblin.md")) true true
                                 (Some goblin_key) empty_world)))
  = Some (file_texts (fst (write_monster_to_file no_unicode some_text goblin
                                                 OutFile true true
                                                 (Some goblin_key)))).
Proof.
  exact (proj1 (proj2 (@new_file_holds_what_was_printed no_unicode some_text
                         goblin (lit "bestiary/Goblin.md") true true
                         (Some goblin_key) empty_world eq_refl))).
Defined.

Lemma unnamed_record_example :
  exists w',
    main_loop no_unicode some_text bestiary
              [(lit "Goblin", goblin); (goblin_key, goblin)] empty_world
    = Terminated IndexError w'
    /\ w_files w' = [] /\ w_stdout w' = [].
Proof.
  exact (proj1 (unnamed_record_ends_the_run no_unicode some_text bestiary
                  (lit "Goblin") goblin empty_world [(goblin_key, goblin)])
               ltac:(cbn; lia)).
Defined.

Lemma text_save_example :
  exists w',
    main_loop no_unicode some_text bestiary
      [(goblin_key,
        dict_set (lit "saves") (VDict [field "fort" (str "+3")]) goblin);
       (lit "https://aonprd.com/MonsterDisplay.aspx?ItemName=Cleric", cleric)]
      empty_world
    = Terminated ValueError w'
    /\ w_stdout w' = []
    /\ exists lines, lookup (lit "bestiary/Goblin.md") (w_files w') = Some lines.
Proof.
  exact (@text_save_ends_the_run no_unicode some_text bestiary goblin_key
           (lit "Goblin") (lit "MonsterDisplay.aspx?ItemName=Goblin") (lit "+3")
           goblin [field "fort" (str "+3")] empty_world
           [(lit "https://aonprd.com/MonsterDisplay.aspx?ItemName=Cleric", cleric)]
           eq_refl eq_refl eq_refl eq_refl eq_refl).
Defined.

Lemma speeds_example :
  speed_items no_unicode
    (VDict [field "base" (VInt 30); field "fly" (VInt 60);
            field "fly_maneuverability" (str "good"); field "swim" (VInt 20)])
  = ret ([lit "30 ft."; lit "fly 60 ft. (good)"]
         ++ map (speed_text no_unicode)
                (filter other_speed
                   [field "base" (VInt 30); field "fly" (VInt 60);
                    field "fly_maneuverability" (str "good");
                    field "swim" (VInt 20)])).
Proof.
  exact (@speeds_after_base_and_fly no_unicode
           [field "base" (VInt 30); field "fly" (VInt 60);
            field "fly_maneuverability" (str "good"); field "swim" (VInt 20)]
           [lit "30 ft."; lit "fly 60 ft. (good)"]
           (@distinct_NoDup [lit "base"; lit "fly"; lit "fly_maneuverability";
                             lit "swim"] eq_refl) eq_refl).
Defined.

Lemma skills_line_example :
  skills_items (VDict [field "Perception" (VDict [field "_" (VInt (-1))]);
                       field "Stealth" (VDict [field "_" (VInt 10)])])
  = ret [lit "Perception -1"; lit "Stealth +10"].
Proof.
  refine (proj1 (@skills_line no_unicode some_text goblin
                   [field "Perception" (VDict [field "_" (VInt (-1))]);
                    field "Stealth" (VDict [field "_" (VInt 10)])]
                   OutFile true
                   (@distinct_NoDup [lit "Perception"; lit "Stealth"] eq_refl)
                   _ eq_refl)).
  intros k v [[= <- <-]|[[= <- <-]|[]]] _.
  - exists [field "_" (VInt (-1))]. split; [reflexivity|].
    right. now exists (-1)%Z.
  - exists [field "_" (VInt 10)]. split; [reflexivity|].
    right. now exists 10%Z.
Defined.

Lemma test_option_example :
  select_example (VStr (lit "4")) = None /\ select_example (VInt 4) <> None.
Proof.
  split.
  - exact (proj1 test_option_selects_nothing (lit "4")).
  - apply (proj2 test_option_selects_nothing 4%Z). lia.
Defined.

Lemma saving_throws_example :
  step_saves (VDict goblin) OutFile true
  = ([KeyUsed (lit "saves");
      Emit OutFile (lit "saves: " ++ dq ++ lit "Fort +3, Ref +2, Will -1" ++ dq)],
     Ok tt).
Proof.
  exact (proj1 (@saving_throws_lines goblin
                  [field "fort" (VInt 3); field "ref" (VInt 2);
                   field "will" (VInt (-1))] 3 2 (-1) OutFile true
                  eq_refl eq_refl eq_refl eq_refl) eq_refl).
Defined.


Lemma absent_race_recorded_example :
  fst (step_race no_unicode (VDict goblin) OutFile true)
  = [KeyUsed (lit "race")].
Proof.
  exact (@absent_field_is_recorded_as_used no_unicode some_text goblin OutFile
           "race" (step_race no_unicode) (or_introl eq_refl) eq_refl).
Defined.

Lemma named_lists_example :
  step_special_abilities no_unicode
    (VDict [field "special_abilities"
              (VDict [field "Stench" (str "DC 13");
                      field "Rend" (str "2 claws")])])
    OutFile false
  = ([Emit OutFile (lit "special_abilities:");
      Emit OutFile (lit "  - name: Stench");
      Emit OutFile (lit "    desc: " ++ dq ++ lit "DC 13" ++ dq);
      Emit OutFile (lit "  - name: Rend");
      Emit OutFile (lit "    desc: " ++ dq ++ lit "2 claws" ++ dq)], Ok tt).
Proof.
  exact (proj1 (@named_lists_entry_by_entry no_unicode
                  [field "special_abilities"
                     (VDict [field "Stench" (str "DC 13");
                             field "Rend" (str "2 claws")])]
                  [field "Stench" (str "DC 13"); field "Rend" (str "2 claws")]
                  OutFile false
                  (@distinct_NoDup [lit "Stench"; lit "Rend"] eq_refl)) eq_refl).
Defined.


Lemma desc_lines_example :
  to_desc no_unicode (VStr [92; 110]%N) OutFile
  <> to_desc no_unicode (VStr [10]%N) OutFile.
Proof.
  apply (@desc_lines_tell_texts_apart no_unicode [92; 110]%N [10]%N OutFile).
  - repeat constructor; reflexivity.
  - repeat constructor; reflexivity.
  - discriminate.
Defined.
